(** * Reconciliation engine of discrepancy_detector.py

    A shallow embedding of [normalize_columns] and [find_discrepancies]
    (src/discrepancy_detector.py, lines 34-55 and 80-101) and the properties
    of the engine that follow from it.

    Modelling choices, all taken from the source:
    - a pandas DataFrame is its list of column labels and its list of rows;
      labels are header strings and are pairwise distinct in every frame the
      readers build, a row is the list of its cells in column order;
    - a cell is a Python scalar: [None], a string, an integer, or the float
      [nan] that pandas stores for a blank cell (other floats are left out);
      an integer cell stands for that number whether pandas holds it as an
      integer or, in a row handed out as float64, as a float: the two agree
      up to 2^53 in magnitude ([float_exact]), and the statements that
      depend on the comparison of numbers are made within that range;
    - strings are ASCII text: [str.lower] is modelled on ASCII letters,
      which covers every alias of [COLUMN_MAP], and the whitespace of
      [str.split] and [str.strip] is the ASCII whitespace ([ascii_text]);
    - frames are objects: a store maps object identities to frames, and
      [df.rename(..., inplace=True)] updates the store at the identity it
      is given;
    - Python exceptions are an explicit [Raise] outcome;
    - the frame returned by [find_discrepancies] is represented by the list
      of records (dicts) it is built from, one report row per record. *)

From Stdlib Require Import ZArith Ascii String List Bool Lia.
From stdpp Require Import base option list strings gmap.

Local Open Scope string_scope.
Local Open Scope list_scope.
Local Open Scope nat_scope.

(** ** Python values *)

Inductive value : Type :=
| VNone
| VNaN
| VStr (s : string)
| VInt (z : Z).

#[global] Instance value_eq_dec : EqDecision value.
Proof. solve_decision. Defined.

(** [bool(v)]: what [if not po_number] tests. [nan] is a non-zero float. *)
Definition truthy (v : value) : bool :=
  match v with
  | VNone => false
  | VNaN => true
  | VStr s => negb (String.eqb s "")
  | VInt z => negb (Z.eqb z 0)
  end.

(** [a != b] on two scalars (line 94).  Integers are compared as numbers;
    this is the program's comparison for integers within [float_exact],
    also in a row that pandas hands out as float64. *)
Definition py_ne (a b : value) : bool :=
  match a, b with
  | VNone, VNone => false
  | VStr s, VStr t => negb (String.eqb s t)
  | VInt x, VInt y => negb (Z.eqb x y)
  | _, _ => true
  end.

(** One position of [series == scalar] (line 88): pandas compares
    elementwise and a null on either side never compares equal.  Integers
    are compared as numbers, as for [py_ne]. *)
Definition cell_eq (c x : value) : bool :=
  match c, x with
  | VStr s, VStr t => String.eqb s t
  | VInt a, VInt b => Z.eqb a b
  | _, _ => false
  end.

(** ** Strings *)

Definition lower_ascii (c : ascii) : ascii :=
  let n := N_of_ascii c in
  if (N.leb 65 n && N.leb n 90)%bool then ascii_of_N (n + 32) else c.

(** [s.lower()] *)
Fixpoint lower (s : string) : string :=
  match s with
  | EmptyString => EmptyString
  | String c s' => String (lower_ascii c) (lower s')
  end.

(** ** Frames, rows and the object store *)

Record DataFrame : Type := mkDataFrame {
  columns : list string;
  rows : list (list value)
}.

(** A row as [iterrows] and [iloc] hand it out: cells keyed by label. *)
Definition Series : Type := list (string * value).

Definition dict : Type := list (string * value).

Definition ref : Type := nat.
Definition store : Type := ref -> DataFrame.

Definition update (st : store) (r : ref) (df : DataFrame) : store :=
  fun r' => if Nat.eqb r' r then df else st r'.

Inductive exn : Type :=
| KeyError      (* KeyError: False, from invoice_df[False] *)
| IndexError.   (* iloc[0] on a frame without rows *)

Inductive result (A : Type) : Type :=
| Ok (a : A)
| Raise (e : exn).
Arguments Ok {A} a.
Arguments Raise {A} e.

(** Computations over the store that may raise. *)
Definition M (A : Type) : Type := store -> result A * store.

Definition ret {A} (a : A) : M A := fun st => (Ok a, st).

Definition bind {A B} (m : M A) (k : A -> M B) : M B :=
  fun st =>
    match m st with
    | (Ok a, st') => k a st'
    | (Raise e, st') => (Raise e, st')
    end.

Definition deref (r : ref) : M DataFrame := fun st => (Ok (st r), st).

Definition lift {A} (x : result A) : M A := fun st => (x, st).

#[global] Instance M_ret : MRet M := @ret.
#[global] Instance M_bind : MBind M := fun A B k m => bind m k.

(** ** normalize_columns *)

Definition COLUMN_MAP : list (string * list string) :=
  [ ("po number", ["po number"; "po id"; "po detail"; "purchase order"]);
    ("invoice number", ["invoice number"; "inv no"; "invoice id"]);
    ("vendor", ["vendor"; "supplier"; "vendor name"; "supplier name"]);
    ("total amount", ["total amount"; "amount"; "total"]);
    ("quantity", ["quantity"; "qty"]);
    ("currency", ["currency"; "curr"]) ].

(** The inner loop: the first variant found in [df_cols], if any. *)
Fixpoint first_variant (variants df_cols : list string) : option string :=
  match variants with
  | [] => None
  | v :: vs =>
      if bool_decide (v ∈ df_cols) then Some v else first_variant vs df_cols
  end.

(** One turn of the outer loop: [new_cols[v] = std; break]. *)
Definition add_std (df_cols : list string) (new_cols : gmap string string)
    (item : string * list string) : gmap string string :=
  match first_variant item.2 df_cols with
  | Some v => <[v := item.1]> new_cols
  | None => new_cols
  end.

Definition build_new_cols (df_cols : list string) : gmap string string :=
  foldl (add_std df_cols) ∅ COLUMN_MAP.

(** [rename(columns=new_cols)]: a label that is a key of the mapping is
    replaced, any other label is kept; cells are not touched. *)
Definition rename (new_cols : gmap string string) (df : DataFrame) : DataFrame :=
  {| columns := map (fun c => default c (new_cols !! c)) (columns df);
     rows := rows df |}.

(** What lines 47-54 do to the frame they are given. *)
Definition normalized (df : DataFrame) : DataFrame :=
  let df_cols := map lower (columns df) in
  rename (build_new_cols df_cols) df.

(** [normalize_columns(df)]: the frame is renamed in place and the same
    object is returned. *)
Definition normalize_columns (df : ref) : M ref :=
  fun st => (Ok df, update st df (normalized (st df))).

(** ** find_discrepancies *)

(** [df.iterrows()]: one Series per row, indexed by the column labels.  The
    cells are handed out as the numbers and strings they are; pandas may
    hold the numbers of a row as float64, which leaves an integer within
    [float_exact] the same number. *)
Definition iterrows (df : DataFrame) : list Series :=
  map (fun r => zip (columns df) r) (rows df).

(** [row.get(key)]: the cell under [key], [None] when the label is absent. *)
Fixpoint series_get (row : Series) (key : string) : value :=
  match row with
  | [] => VNone
  | (label, cell) :: rest =>
      if String.eqb label key then cell else series_get rest key
  end.

(** [df.get(key)]: the column under [key], [None] when there is none. *)
Definition frame_get (df : DataFrame) (key : string) : option (list value) :=
  if bool_decide (key ∈ columns df)
  then Some (map (fun row => series_get row key) (iterrows df))
  else None.

(** [df[mask]] for a boolean mask: the rows at the True positions. *)
Definition select (df : DataFrame) (mask : list bool) : DataFrame :=
  {| columns := columns df;
     rows := map fst (filter (fun rm => Is_true rm.2) (zip (rows df) mask)) |}.

(** [df.empty]: some axis has length 0. *)
Definition empty (df : DataFrame) : bool :=
  (Nat.eqb (length (columns df)) 0 || Nat.eqb (length (rows df)) 0)%bool.

(** [df.iloc[0]] *)
Definition iloc0 (df : DataFrame) : result Series :=
  match iterrows df with
  | [] => Raise IndexError
  | row :: _ => Ok row
  end.

(** [invoice_df[invoice_df.get('po number') == po_number]]: without the
    column, [get] gives [None], [None == po_number] is the plain [False],
    and indexing a frame with [False] looks for a column of that name. *)
Definition matching (invoice_df : DataFrame) (po_number : value)
    : result DataFrame :=
  match frame_get invoice_df "po number" with
  | None => Raise KeyError
  | Some col => Ok (select invoice_df (map (fun c => cell_eq c po_number) col))
  end.

Definition compared : list string :=
  ["total amount"; "vendor"; "quantity"; "currency"].

Definition no_match (po_number : value) : dict :=
  [("PO Number", po_number); ("Issue", VStr "No matching invoice")].

Definition mismatch (po_number : value) (col : string) (po_value inv_value : value)
    : dict :=
  [("PO Number", po_number); ("Field", VStr col);
   ("PO Value", po_value); ("Invoice Value", inv_value)].

(** Lines 93-100: one record per compared column on which the rows differ. *)
Definition compare (po_number : value) (po_row inv : Series) : list dict :=
  flat_map
    (fun col =>
       if py_ne (series_get po_row col) (series_get inv col)
       then [mismatch po_number col (series_get po_row col) (series_get inv col)]
       else [])
    compared.

(** Lines 85-100: the records one PO row appends. *)
Definition row_discrepancies (invoice_df : DataFrame) (po_row : Series)
    : result (list dict) :=
  let po_number := series_get po_row "po number" in
  if negb (truthy po_number) then Ok []
  else
    match matching invoice_df po_number with
    | Raise e => Raise e
    | Ok matched =>
        if empty matched then Ok [no_match po_number]
        else
          match iloc0 matched with
          | Raise e => Raise e
          | Ok inv => Ok (compare po_number po_row inv)
          end
    end.

(** Lines 84-100: the loop over the PO rows; a raise ends it. *)
Fixpoint scan (invoice_df : DataFrame) (po_rows : list Series)
    (discrepancies : list dict) : result (list dict) :=
  match po_rows with
  | [] => Ok discrepancies
  | po_row :: rest =>
      match row_discrepancies invoice_df po_row with
      | Raise e => Raise e
      | Ok found => scan invoice_df rest (discrepancies ++ found)
      end
  end.

Definition sentinel : dict := [("Message", VStr "No discrepancies found!")].

(** Line 101: the report rows. *)
Definition report (discrepancies : list dict) : list dict :=
  match discrepancies with
  | [] => [sentinel]
  | _ :: _ => discrepancies
  end.

Definition find_discrepancies (po_df invoice_df : ref) : M (list dict) :=
  po_df ← normalize_columns po_df;
  invoice_df ← normalize_columns invoice_df;
  po ← deref po_df;
  invoice ← deref invoice_df;
  discrepancies ← lift (scan invoice (iterrows po) []);
  mret (report discrepancies).

(** The engine on two separate frame objects: object 0 holds the PO table,
    object 1 the invoice table. *)
Definition two_frames (po invoice : DataFrame) : store :=
  fun r => match r with 0%nat => po | _ => invoice end.

Definition run (po invoice : DataFrame) : result (list dict) :=
  (find_discrepancies 0%nat 1%nat (two_frames po invoice)).1.

(** The store after lines 81 and 82. *)
Definition after_normalize (po_df invoice_df : ref) (st : store) : store :=
  (normalize_columns invoice_df (normalize_columns po_df st).2).2.

(** The row of [invoice_df] that line 92 picks for a PO number, if any. *)
Definition selected (invoice_df : DataFrame) (po_number : value)
    : result (option Series) :=
  match matching invoice_df po_number with
  | Raise e => Raise e
  | Ok matched =>
      if empty matched then Ok None
      else match iloc0 matched with
           | Raise e => Raise e
           | Ok inv => Ok (Some inv)
           end
  end.

(** ** The matching rule in the words of the specification

    Section 4.2 asks for a comparison of PO numbers that is at least a
    whitespace-trimmed string compare.  [spec_first_match] is that rule,
    written from the specification, to be compared with [selected]. *)

(** The whitespace of [str.split()] and [str.strip()] among the ASCII
    characters: tab to carriage return, the four separators 28-31, and the
    blank. *)
Definition is_space (c : ascii) : bool :=
  let n := N_of_ascii c in
  ((N.leb 9 n && N.leb n 13) || (N.leb 28 n && N.leb n 32))%bool.

Fixpoint lstrip (s : string) : string :=
  match s with
  | EmptyString => EmptyString
  | String c s' => if is_space c then lstrip s' else s
  end.

Fixpoint rstrip (s : string) : string :=
  match s with
  | EmptyString => EmptyString
  | String c s' =>
      match rstrip s' with
      | EmptyString => if is_space c then EmptyString else String c EmptyString
      | t => String c t
      end
  end.

Definition strip (s : string) : string := rstrip (lstrip s).



(** ** Example tables *)

Definition scenarioA_po : DataFrame :=
  {| columns := ["po number"; "vendor"; "total amount"];
     rows := [[VStr "PO1"; VStr "Acme"; VInt 100]] |}.

Definition scenarioA_invoice : DataFrame :=
  {| columns := ["invoice number"; "po number"; "vendor"; "total amount"];
     rows := [[VStr "I1"; VStr "PO1"; VStr "Acme Corp"; VInt 100]] |}.

(** A one-column table with the given header and the given cells. *)
Definition one_column (header : string) (cells : list value) : DataFrame :=
  {| columns := [header]; rows := map (fun c => [c]) cells |}.

Definition supplier_table : DataFrame :=
  {| columns := ["po id"; "Supplier"; "supplier"; "notes"];
     rows := [[VStr "PO7"; VStr "Acme"; VStr "Acme"; VNaN]] |}.

(** A PO table whose only row has a blank PO-number cell. *)
Definition blank_po : DataFrame :=
  {| columns := ["po number"; "vendor"];
     rows := [[VNaN; VStr "Acme"]] |}.

Definition plain_invoice : DataFrame :=
  {| columns := ["po number"; "vendor"];
     rows := [[VStr "PO1"; VStr "Acme"]] |}.

(** Tables without a PO-number column. *)
Definition keyless_po : DataFrame :=
  {| columns := ["vendor"; "total amount"];
     rows := [[VStr "Acme"; VInt 100]] |}.

Definition keyless_invoice : DataFrame :=
  {| columns := ["invoice number"; "vendor"; "total amount"];
     rows := [[VStr "I1"; VStr "Acme"; VInt 100]] |}.

(** An invoice table in which PO1 occurs twice. *)
Definition duplicate_invoice : DataFrame :=
  {| columns := ["po number"; "vendor"];
     rows := [[VStr "PO0"; VStr "Zeta"];
              [VStr "PO1"; VStr "Acme"];
              [VStr "PO1"; VStr "Other"]] |}.

(** The canonical names: the keys of [COLUMN_MAP]. *)
Definition canonical : list string := map fst COLUMN_MAP.

(** ** The frame that is returned (line 101)

    [pd.DataFrame(records)] for a list of dicts: the columns are the keys in
    the order in which they first appear, and a record without a key has
    [nan] in that column.  The frame is used for its columns and its shape;
    a [None] held by a record is shown as it is given, where pandas may
    store [nan] for it. *)

Definition add_key (cols : list string) (k : string) : list string :=
  if bool_decide (k ∈ cols) then cols else cols ++ [k].

Definition record_columns (records : list dict) : list string :=
  foldl (fun cols d => foldl add_key cols (map fst d)) [] records.

(** [d.get(k)] on a record. *)
Fixpoint dict_get (d : dict) (k : string) : option value :=
  match d with
  | [] => None
  | (k', v) :: rest => if String.eqb k' k then Some v else dict_get rest k
  end.

Definition frame_of_records (records : list dict) : DataFrame :=
  let cols := record_columns records in
  {| columns := cols;
     rows := map (fun d => map (fun c => default VNaN (dict_get d c)) cols)
                 records |}.

(** ** File names (lines 14, 43-44, 71-78, 162-164, 182-195) *)

Definition ALLOWED_EXTENSIONS : gset string := {[ "pdf"; "xlsx"; "xls" ]}.

(** ['.' in s] *)
Fixpoint has_dot (s : string) : bool :=
  match s with
  | EmptyString => false
  | String c s' => (Ascii.eqb c "." || has_dot s')%bool
  end.

(** [s.rsplit('.', 1)]: two parts around the last dot, or [s] alone. *)
Fixpoint rsplit_dot (s : string) : list string :=
  match s with
  | EmptyString => [EmptyString]
  | String c s' =>
      match rsplit_dot s' with
      | [h; t] => [String c h; t]
      | _ => if Ascii.eqb c "." then [EmptyString; s'] else [String c s']
      end
  end.

(** [allowed_file(filename)].  The element 1 of the split is read only
    after the test for a dot; [None] stands for the IndexError that reading
    it from a one-element list would be. *)
Definition allowed_file (filename : string) : option bool :=
  if has_dot filename
  then match rsplit_dot filename !! 1 with
       | Some ext => Some (bool_decide (lower ext ∈ ALLOWED_EXTENSIONS))
       | None => None
       end
  else Some false.

(** [s.endswith(suffix)] *)
Fixpoint endswith (s suffix : string) : bool :=
  (String.eqb s suffix ||
   match s with
   | EmptyString => false
   | String _ s' => endswith s' suffix
   end)%bool.

(** [s.startswith(p)] *)
Fixpoint startswith (s p : string) : bool :=
  match p, s with
  | EmptyString, _ => true
  | String a p', String b s' => (Ascii.eqb a b && startswith s' p')%bool
  | String _ _, EmptyString => false
  end.

(** [sub in s] *)
Fixpoint contains (sub s : string) : bool :=
  (startswith s sub ||
   match s with
   | EmptyString => false
   | String _ s' => contains sub s'
   end)%bool.

(** The reader [extract_data] hands the path to. *)
Inductive reader : Type := ReadExcel | ReadPdf.

(** [extract_data(path)] up to the call of a reader: which reader is given
    the path; [None] is the ValueError for an unsupported type. *)
Definition extract_data (path : string) : option reader :=
  let lower := lower path in
  if (endswith lower ".xls" || endswith lower ".xlsx")%bool then Some ReadExcel
  else if endswith lower ".pdf" then Some ReadPdf
  else None.

(** The guard of [download_excel] and [download_pdf]: [true] is abort(403). *)
Definition download_refused (filename : string) : bool :=
  (contains ".." filename || startswith filename "/")%bool.

(** The names [home] gives the two reports of one request; [uid] is
    [uuid.uuid4().hex], a string of hexadecimal digits. *)
Definition excel_filename (uid : string) : string := "report_" +:+ uid +:+ ".xlsx".
Definition pdf_filename (uid : string) : string := "report_" +:+ uid +:+ ".pdf".

Definition is_hex (c : ascii) : bool :=
  let n := N_of_ascii c in
  ((N.leb 48 n && N.leb n 57) || (N.leb 97 n && N.leb n 102))%bool.

Fixpoint hex_string (s : string) : bool :=
  match s with
  | EmptyString => true
  | String c s' => (is_hex c && hex_string s')%bool
  end.

(** [s.split(sep)] for a one-character separator. *)
Fixpoint split_on (sep : ascii) (s : string) : list string :=
  match s with
  | EmptyString => [EmptyString]
  | String c s' =>
      if Ascii.eqb c sep then EmptyString :: split_on sep s'
      else match split_on sep s' with
           | [] => [String c EmptyString]
           | w :: ws => String c w :: ws
           end
  end.

(** ** The text of a PDF (lines 61-68)

    [read_pdf] up to the construction of the frame: the text of the pages,
    cut into lines and the lines into words.  A page is what
    [extract_text] returns for it, [None] included. *)

Definition newline : ascii := "010"%char.

(** [s.split()]: the maximal runs of characters that are not whitespace. *)
Fixpoint split_ws (s : string) : list string :=
  match s with
  | EmptyString => []
  | String c s' =>
      if is_space c then split_ws s'
      else match s' with
           | EmptyString => [String c EmptyString]
           | String c' _ =>
               if is_space c' then String c EmptyString :: split_ws s'
               else match split_ws s' with
                    | w :: ws => String c w :: ws
                    | [] => [String c EmptyString]
                    end
           end
  end.

(** One turn of the loop over the pages: [if txt: text += txt + '\n']. *)
Definition add_page (text : string) (txt : option string) : string :=
  match txt with
  | Some t => if String.eqb t "" then text else text +:+ t +:+ String newline ""
  | None => text
  end.

(** The rows kept from a list of lines: the words of every line that is
    not blank. *)
Definition line_rows (lines : list string) : list (list string) :=
  map split_ws (filter (fun line => strip line ≠ "") lines).

Definition read_pdf_data (pages : list (option string)) : list (list string) :=
  let text := foldl add_page "" pages in
  let lines := split_on newline text in
  line_rows lines.

(** Whether a string has a whitespace character, or only such. *)
Fixpoint has_space (s : string) : bool :=
  match s with
  | EmptyString => false
  | String c s' => (is_space c || has_space s')%bool
  end.

Fixpoint all_space (s : string) : bool :=
  match s with
  | EmptyString => true
  | String c s' => (is_space c && all_space s')%bool
  end.

Definition no_match_keys : list string := ["PO Number"; "Issue"].
Definition mismatch_keys : list string :=
  ["PO Number"; "Field"; "PO Value"; "Invoice Value"].

(** The column lists a frame of discrepancy records can have. *)
Definition record_shapes : list (list string) :=
  [ no_match_keys;
    mismatch_keys;
    ["PO Number"; "Issue"; "Field"; "PO Value"; "Invoice Value"];
    ["PO Number"; "Field"; "PO Value"; "Invoice Value"; "Issue"] ].

(** ** Numbers and text within the model *)

(** An integer that float64 holds exactly: up to 2^53 in magnitude.  For
    such a number it makes no difference whether a row is handed out with
    its integers or, the table being all numeric with a blank, as
    float64. *)
Definition float_exact (v : value) : bool :=
  match v with
  | VInt z => (Z.abs z <=? 2 ^ 53)%Z
  | _ => true
  end.

(** A cell that holds a string or such an integer: neither [None] nor
    [nan]. *)
Definition plain_cell (v : value) : bool :=
  match v with
  | VStr _ => true
  | VInt z => (Z.abs z <=? 2 ^ 53)%Z
  | _ => false
  end.

(** ASCII text. *)
Definition is_ascii (c : ascii) : bool := N.ltb (N_of_ascii c) 128.

Fixpoint ascii_text (s : string) : bool :=
  match s with
  | EmptyString => true
  | String c s' => (is_ascii c && ascii_text s')%bool
  end.



(** ** Facts about the alias table *)

(** Every canonical name is already in lower case. *)
Lemma canonical_lower c : c ∈ canonical → lower c = c.
Proof.
  assert (H : Forall (fun c => lower c = c) canonical).
  { apply (bool_decide_unpack _). vm_compute. exact I. }
  rewrite Forall_forall in H. apply H.
Qed.

(** A canonical name is a variant of its own entry only. *)
Lemma canonical_variant std variants v :
  (std, variants) ∈ COLUMN_MAP → v ∈ variants → v ∈ canonical → v = std.
Proof.
  assert (H : Forall (fun item : string * list string =>
               Forall (fun v => v ∈ canonical → v = item.1) item.2) COLUMN_MAP).
  { apply (bool_decide_unpack _). vm_compute. exact I. }
  rewrite Forall_forall in H. intros Hin Hv Hc.
  specialize (H _ Hin). simpl in H. rewrite Forall_forall in H. auto.
Qed.

Lemma first_variant_Some variants df_cols v :
  first_variant variants df_cols = Some v → v ∈ variants ∧ v ∈ df_cols.
Proof.
  induction variants as [|x vs IH]; simpl; [done|].
  case_bool_decide as Hx.
  - intros [= ->]. split; [left | done].
  - intros H. destruct (IH H). split; [by right | done].
Qed.

(** Where a key of the renaming built by the outer loop comes from. *)
Lemma foldl_add_std items df_cols (m : gmap string string) v std :
  foldl (add_std df_cols) m items !! v = Some std →
  m !! v = Some std ∨
  ∃ variants, (std, variants) ∈ items ∧ first_variant variants df_cols = Some v.
Proof.
  revert m. induction items as [|[s vs] items IH]; intros m; simpl.
  - auto.
  - intros H. apply IH in H as [H | (variants & Hin & Hvs)].
    + unfold add_std in H. simpl in H.
      destruct (first_variant vs df_cols) as [w|] eqn:Hw; [|auto].
      destruct (decide (w = v)) as [->|Hne].
      * rewrite lookup_insert_eq in H. injection H as ->.
        right. exists vs. split; [left | done].
      * rewrite lookup_insert_ne in H by done. auto.
    + right. exists variants. split; [by right | done].
Qed.

Lemma build_new_cols_first df_cols v std :
  build_new_cols df_cols !! v = Some std →
  ∃ variants, (std, variants) ∈ COLUMN_MAP ∧
              first_variant variants df_cols = Some v.
Proof.
  intros H. apply foldl_add_std in H as [H|H]; [|done].
  by rewrite lookup_empty in H.
Qed.

Lemma build_new_cols_key df_cols v std :
  build_new_cols df_cols !! v = Some std →
  v ∈ df_cols ∧ ∃ variants, (std, variants) ∈ COLUMN_MAP ∧ v ∈ variants.
Proof.
  intros H. apply build_new_cols_first in H as (vs & Hin & Hw).
  apply first_variant_Some in Hw as [Hv Hd]. eauto.
Qed.

(** Each entry lists its canonical name first, and no name has two
    entries. *)
Lemma canonical_first std variants :
  (std, variants) ∈ COLUMN_MAP → head variants = Some std.
Proof.
  assert (H : Forall (fun item : string * list string =>
               head item.2 = Some item.1) COLUMN_MAP).
  { apply (bool_decide_unpack _). vm_compute. exact I. }
  rewrite Forall_forall in H. intros Hin. exact (H _ Hin).
Qed.

Lemma COLUMN_MAP_functional std vs1 vs2 :
  (std, vs1) ∈ COLUMN_MAP → (std, vs2) ∈ COLUMN_MAP → vs1 = vs2.
Proof.
  assert (H : Forall (fun i1 : string * list string =>
               Forall (fun i2 : string * list string =>
                         i1.1 = i2.1 → i1.2 = i2.2) COLUMN_MAP) COLUMN_MAP).
  { apply (bool_decide_unpack _). vm_compute. exact I. }
  rewrite Forall_forall in H. intros H1 H2.
  specialize (H _ H1). rewrite Forall_forall in H.
  exact (H _ H2 eq_refl).
Qed.

(** ** Facts about normalization *)

Lemma normalized_rows df : rows (normalized df) = rows df.
Proof. reflexivity. Qed.

Lemma normalized_columns_length df :
  length (columns (normalized df)) = length (columns df).
Proof. unfold normalized, rename; simpl. apply length_map. Qed.

Lemma normalized_column df i c :
  columns df !! i = Some c →
  columns (normalized df) !! i =
    Some (default c (build_new_cols (map lower (columns df)) !! c)).
Proof.
  intros H. unfold normalized, rename; simpl.
  change (map ?f ?l) with (f <$> l) at 1.
  by rewrite list_lookup_fmap, H.
Qed.

(** The cells a row hands out do not depend on what the labels are. *)
Lemma zip_cells (l1 l2 : list string) (r : list value) :
  length l1 = length l2 → map snd (zip l1 r) = map snd (zip l2 r).
Proof.
  revert l2 r. induction l1 as [|a l1 IH]; intros [|b l2] r Hlen;
    try discriminate; [done|].
  destruct r as [|x r]; simpl; [done|]. f_equal. apply IH. by injection Hlen.
Qed.

(** Distinct labels stay distinct: the renaming never gives two columns
    the same label, so after normalization a label still names one cell of
    a row. *)
Lemma normalized_NoDup df :
  NoDup (columns df) → NoDup (columns (normalized df)).
Proof.
  intros Hnd. unfold normalized, rename; simpl.
  set (df_cols := map lower (columns df)). set (m := build_new_cols df_cols).
  change (map ?f ?l) with (f <$> l).
  apply NoDup_fmap_2_strong; [|done].
  intros c1 c2 H1 H2 Heq.
  assert (Hfix : ∀ c c', m !! c = Some c' → c' ∈ columns df → c = c').
  { intros c c' Hc Hin. apply build_new_cols_first in Hc as (vs & Hvs & Hw).
    pose proof (canonical_first _ _ Hvs) as Hhd.
    destruct vs as [|x vs]; [done|]. injection Hhd as ->. simpl in Hw.
    assert (Hc' : c' ∈ df_cols).
    { unfold df_cols. change (map ?f ?l) with (f <$> l).
      apply list_elem_of_fmap. exists c'. split; [|done]. symmetry.
      apply canonical_lower. unfold canonical.
      change (map ?f ?l) with (f <$> l).
      apply list_elem_of_fmap. by exists (c', c' :: vs). }
    rewrite (bool_decide_eq_true_2 _ Hc') in Hw. by injection Hw. }
  destruct (m !! c1) as [s1|] eqn:E1; destruct (m !! c2) as [s2|] eqn:E2;
    simpl in Heq.
  - subst s2.
    apply build_new_cols_first in E1 as (vs1 & Hin1 & Hw1).
    apply build_new_cols_first in E2 as (vs2 & Hin2 & Hw2).
    rewrite (COLUMN_MAP_functional _ _ _ Hin1 Hin2) in Hw1. congruence.
  - subst s1. by apply Hfix.
  - subst s2. symmetry. by apply Hfix.
  - done.
Qed.

(** [C8] Normalizing a table whose headers are all canonical field names
    changes nothing: the frame, and so each row with its cells under its
    labels, is the one that was given. *)
Theorem canonical_headers_noop (df : DataFrame) :
  Forall (fun c => c ∈ canonical) (columns df) →
  normalized df = df ∧ iterrows (normalized df) = iterrows df.
Proof.
  intros Hcan.
  assert (Hlow : map lower (columns df) = columns df).
  { induction Hcan as [|c l Hc _ IH]; simpl; [done|].
    by rewrite (canonical_lower c Hc), IH. }
  assert (Heq : normalized df = df).
  { unfold normalized, rename. rewrite Hlow. destruct df as [cols rs]; simpl in *.
    f_equal. clear Hlow. set (m := build_new_cols cols).
    assert (Hm : ∀ c std, m !! c = Some std → c ∈ canonical → std = c).
    { intros c std H Hc. apply build_new_cols_key in H as (_ & vs & Hin & Hv).
      symmetry. by eapply canonical_variant. }
    clearbody m. induction Hcan as [|c l Hc _ IH]; simpl; [done|].
    rewrite IH. f_equal. destruct (m !! c) as [std|] eqn:E; simpl; [|done].
    by apply Hm. }
  by rewrite Heq.
Qed.

Lemma canonical_headers_noop_witness :
  Forall (fun c => c ∈ canonical) (columns scenarioA_invoice) ∧
  normalized scenarioA_invoice = scenarioA_invoice ∧
  iterrows (normalized scenarioA_invoice) = iterrows scenarioA_invoice.
Proof.
  assert (H : Forall (fun c => c ∈ canonical) (columns scenarioA_invoice)).
  { apply (bool_decide_unpack _). vm_compute. exact I. }
  split; [exact H | exact (canonical_headers_noop scenarioA_invoice H)].
Defined.

(** [C10] Normalization keeps the rows as they are (their number, their
    order and every cell), so each row hands out the same cells in the same
    order; it keeps the number of columns, and keeps the label of every
    column whose header is not an alias of [COLUMN_MAP]: only labels can
    change, and no column is removed. *)
Theorem normalization_keeps_cells (df : DataFrame) :
  rows (normalized df) = rows df ∧
  map (map snd) (iterrows (normalized df)) = map (map snd) (iterrows df) ∧
  length (columns (normalized df)) = length (columns df) ∧
  (∀ i c, columns df !! i = Some c →
          is_Some (columns (normalized df) !! i)) ∧
  (∀ i c, columns df !! i = Some c →
          (∀ item, item ∈ COLUMN_MAP → c ∉ item.2) →
          columns (normalized df) !! i = Some c).
Proof.
  split; [apply normalized_rows|].
  split.
  { unfold iterrows. rewrite normalized_rows, !map_map.
    apply map_ext. intros r. apply zip_cells, normalized_columns_length. }
  split; [apply normalized_columns_length|].
  split.
  - intros i c H. rewrite (normalized_column df i c H). eauto.
  - intros i c H Hno. rewrite (normalized_column df i c H). f_equal.
    destruct (build_new_cols _ !! c) as [std|] eqn:E; simpl; [|done].
    apply build_new_cols_key in E as (_ & vs & Hin & Hv).
    by destruct (Hno _ Hin).
Qed.

Lemma normalization_keeps_cells_witness :
  rows (normalized supplier_table) = rows supplier_table ∧
  columns (normalized supplier_table) !! 3%nat = Some "notes".
Proof.
  destruct (normalization_keeps_cells supplier_table) as (Hr & _ & _ & _ & Hc).
  split; [exact Hr|]. apply Hc; [reflexivity|].
  apply Forall_forall. apply (bool_decide_unpack _). vm_compute. exact I.
Defined.

(** ** The caller's table after [normalize_columns] *)

(** [C6], as the specification has it, fails: normalizing the table with the
    headers po id, Supplier, supplier, notes leaves other labels in the
    caller's object than it had. *)
Lemma normalize_columns_changes_input :
  ¬ (∀ (df : ref) (st : store), (normalize_columns df st).2 df = st df).
Proof.
  intros H. specialize (H 0%nat (fun _ => supplier_table)).
  apply (f_equal columns) in H. vm_compute in H. discriminate H.
Qed.

(** [C6], amended: [normalize_columns] renames the columns of the object it
    is given in place and returns that same object.  Afterwards the caller's
    object is the normalized table, with the rows it had; every other object
    is as it was; and the caller's object is unchanged exactly when the
    renaming changes none of its labels. *)
Theorem normalize_columns_in_place (df : ref) (st : store) :
  (normalize_columns df st).1 = Ok df ∧
  (normalize_columns df st).2 df = normalized (st df) ∧
  rows ((normalize_columns df st).2 df) = rows (st df) ∧
  (∀ other, other ≠ df → (normalize_columns df st).2 other = st other) ∧
  ((normalize_columns df st).2 df = st df ↔
   columns (normalized (st df)) = columns (st df)).
Proof.
  unfold normalize_columns, update; simpl. rewrite Nat.eqb_refl.
  repeat split.
  - intros other Hne. by apply Nat.eqb_neq in Hne as ->.
  - intros H. exact (f_equal columns H).
  - intros H. destruct (st df) as [cols rs]. unfold normalized, rename in *.
    simpl in *. by f_equal.
Qed.

Lemma normalize_columns_in_place_witness :
  (normalize_columns 0%nat (fun _ => supplier_table)).2 1%nat = supplier_table ∧
  columns ((normalize_columns 0%nat (fun _ => supplier_table)).2 0%nat)
    = ["po number"; "Supplier"; "vendor"; "notes"].
Proof.
  destruct (normalize_columns_in_place 0%nat (fun _ => supplier_table))
    as (_ & Hdf & _ & Hother & _).
  split; [apply Hother; lia|]. rewrite Hdf. reflexivity.
Defined.

(** ** Header case *)

(** Every alias is in lower case, so a header that is not already in lower
    case is never a key of the renaming and always keeps its label. *)
Lemma variants_lower std variants v :
  (std, variants) ∈ COLUMN_MAP → v ∈ variants → lower v = v.
Proof.
  assert (H : Forall (fun item : string * list string =>
               Forall (fun v => lower v = v) item.2) COLUMN_MAP).
  { apply (bool_decide_unpack _). vm_compute. exact I. }
  rewrite Forall_forall in H. intros Hin Hv.
  specialize (H _ Hin). simpl in H. rewrite Forall_forall in H. auto.
Qed.

Lemma non_lower_header_kept df i c :
  columns df !! i = Some c → lower c ≠ c →
  columns (normalized df) !! i = Some c.
Proof.
  intros H Hc. rewrite (normalized_column df i c H). f_equal.
  destruct (build_new_cols _ !! c) as [std|] eqn:E; simpl; [|done].
  apply build_new_cols_key in E as (_ & vs & Hin & Hv).
  destruct Hc. by eapply variants_lower.
Qed.

(** [C2] The lower-cased header is found among the aliases, but the renaming
    is keyed by the lower-cased alias while the column still carries the
    header as written: PO Number and PO NUMBER keep their labels, and only
    po number (or an alias written in lower case, such as po id) ends up
    under the canonical label.  A PO table headed PO Number is then read as
    having no PO number at all. *)
Theorem mixed_case_header_not_renamed :
  build_new_cols (map lower ["PO Number"]) !! "po number" = Some "po number" ∧
  columns (normalized (one_column "PO Number" [VStr "PO1"])) = ["PO Number"] ∧
  columns (normalized (one_column "PO NUMBER" [VStr "PO1"])) = ["PO NUMBER"] ∧
  columns (normalized (one_column "po number" [VStr "PO1"])) = ["po number"] ∧
  columns (normalized (one_column "po id" [VStr "PO1"])) = ["po number"] ∧
  columns (normalized (one_column "PO Id" [VStr "PO1"])) = ["PO Id"] ∧
  run (one_column "po number" [VStr "PO1"]) (one_column "po number" [VStr "PO9"])
    = Ok [no_match (VStr "PO1")] ∧
  run (one_column "PO Number" [VStr "PO1"]) (one_column "po number" [VStr "PO9"])
    = Ok [sentinel].
Proof. vm_compute. repeat split. Qed.

(** ** Facts about matching *)

Section Matching.

Variable invoice_df : DataFrame.

(** The PO number of an invoice row, as line 88 reads it. *)
Let key (r : list value) : value :=
  series_get (zip (columns invoice_df) r) "po number".

Lemma masked_rows {A} (f : A → bool) (l : list A) :
  map fst (filter (fun rm : A * bool => Is_true rm.2) (zip l (map f l)))
  = filter (fun r => Is_true (f r)) l.
Proof.
  induction l as [|x l IH]; simpl; [done|].
  rewrite !filter_cons; simpl. destruct (f x); simpl.
  - destruct (decide (Is_true true)) as [_|n]; [|by destruct n].
    simpl. by rewrite IH.
  - destruct (decide (Is_true false)) as [[]|_]. by rewrite IH.
Qed.

Lemma matching_rows po_number :
  "po number" ∈ columns invoice_df →
  matching invoice_df po_number =
    Ok {| columns := columns invoice_df;
          rows := filter (fun r => Is_true (cell_eq (key r) po_number))
                         (rows invoice_df) |}.
Proof.
  intros Hcol. unfold matching, frame_get.
  rewrite (bool_decide_eq_true_2 _ Hcol). unfold select, iterrows.
  do 2 f_equal. rewrite !map_map.
  apply (masked_rows (fun r => cell_eq (key r) po_number)).
Qed.

Lemma selected_first po_number before r after :
  "po number" ∈ columns invoice_df →
  rows invoice_df = before ++ r :: after →
  Forall (fun r' => cell_eq (key r') po_number = false) before →
  cell_eq (key r) po_number = true →
  selected invoice_df po_number = Ok (Some (zip (columns invoice_df) r)).
Proof.
  intros Hcol Hrows Hbefore Hr. unfold selected.
  rewrite (matching_rows _ Hcol), Hrows, filter_app.
  assert (Hnil : filter (fun r0 => Is_true (cell_eq (key r0) po_number)) before = []).
  { clear Hrows. induction Hbefore as [|x l Hx _ IH]; [done|].
    rewrite filter_cons_False; [exact IH|]. rewrite Hx. by intros []. }
  rewrite Hnil, filter_cons_True by (by rewrite Hr). simpl.
  unfold empty, iloc0, iterrows; simpl.
  destruct (columns invoice_df) as [|c cs]; [by apply elem_of_nil in Hcol|].
  reflexivity.
Qed.

Lemma selected_none po_number :
  "po number" ∈ columns invoice_df →
  Forall (fun r' => cell_eq (key r') po_number = false) (rows invoice_df) →
  selected invoice_df po_number = Ok None.
Proof.
  intros Hcol Hall. unfold selected. rewrite (matching_rows _ Hcol).
  assert (Hnil : filter (fun r0 => Is_true (cell_eq (key r0) po_number))
                   (rows invoice_df) = []).
  { induction Hall as [|x l Hx _ IH]; [done|].
    rewrite filter_cons_False; [exact IH|]. rewrite Hx. by intros []. }
  rewrite Hnil. unfold empty; simpl. by rewrite orb_true_r.
Qed.

(** With the column present the lookup of a match never raises. *)
Lemma selected_total po_number :
  "po number" ∈ columns invoice_df →
  ∃ choice, selected invoice_df po_number = Ok choice.
Proof.
  intros Hcol. unfold selected. rewrite (matching_rows _ Hcol).
  unfold empty, iloc0, iterrows; simpl.
  destruct (filter _ (rows invoice_df)) as [|r l]; simpl.
  - rewrite orb_true_r. eauto.
  - destruct (Nat.eqb _ 0); simpl; eauto.
Qed.

(** Lines 85-100 in terms of the selected row. *)
Lemma row_discrepancies_selected po_row :
  row_discrepancies invoice_df po_row =
    let po_number := series_get po_row "po number" in
    if negb (truthy po_number) then Ok []
    else match selected invoice_df po_number with
         | Raise e => Raise e
         | Ok None => Ok [no_match po_number]
         | Ok (Some inv) => Ok (compare po_number po_row inv)
         end.
Proof.
  unfold row_discrepancies, selected; simpl.
  destruct (negb _); [done|].
  destruct (matching _ _) as [matched|e]; [|done].
  destruct (empty matched); [done|]. by destruct (iloc0 matched).
Qed.

End Matching.

Lemma compare_length po_number po_row inv :
  length (compare po_number po_row inv) ≤ 4.
Proof.
  unfold compare, compared; simpl.
  repeat (destruct (py_ne _ _); simpl); lia.
Qed.

Lemma row_discrepancies_length invoice_df po_row found :
  row_discrepancies invoice_df po_row = Ok found → length found ≤ 4.
Proof.
  rewrite row_discrepancies_selected; simpl.
  destruct (negb _); [intros [= <-]; simpl; lia|].
  destruct (selected _ _) as [[inv|]|e]; intros [= <-]; simpl;
    [apply compare_length | lia].
Qed.

(** The accumulator of the loop only grows at its end. *)
Lemma scan_app invoice_df po_rows acc :
  scan invoice_df po_rows acc =
    match scan invoice_df po_rows [] with
    | Ok found => Ok (acc ++ found)
    | Raise e => Raise e
    end.
Proof.
  revert acc. induction po_rows as [|po_row rest IH]; intros acc; simpl.
  - by rewrite app_nil_r.
  - destruct (row_discrepancies invoice_df po_row) as [found|e]; [|done].
    rewrite (IH (acc ++ found)), (IH found).
    destruct (scan invoice_df rest []); [|done]. by rewrite app_assoc.
Qed.

Lemma scan_cons invoice_df po_row rest :
  scan invoice_df (po_row :: rest) [] =
    match row_discrepancies invoice_df po_row with
    | Raise e => Raise e
    | Ok found =>
        match scan invoice_df rest [] with
        | Ok more => Ok (found ++ more)
        | Raise e => Raise e
        end
    end.
Proof.
  simpl. destruct (row_discrepancies invoice_df po_row); [|done].
  apply scan_app.
Qed.

Lemma scan_length invoice_df po_rows ds :
  scan invoice_df po_rows [] = Ok ds → length ds ≤ 4 * length po_rows.
Proof.
  revert ds. induction po_rows as [|po_row rest IH]; intros ds.
  - intros [= <-]. simpl. lia.
  - rewrite scan_cons.
    destruct (row_discrepancies invoice_df po_row) as [found|e] eqn:Hrow; [|done].
    destruct (scan invoice_df rest []) as [more|e]; [|done].
    intros [= <-]. rewrite length_app. simpl.
    pose proof (row_discrepancies_length _ _ _ Hrow).
    pose proof (IH more eq_refl). lia.
Qed.

(** With the PO-number column in the invoice table the loop never raises. *)
Lemma scan_total invoice_df po_rows :
  "po number" ∈ columns invoice_df →
  ∃ ds, scan invoice_df po_rows [] = Ok ds.
Proof.
  intros Hcol. induction po_rows as [|po_row rest [more IH]].
  - by exists [].
  - rewrite scan_cons, IH, row_discrepancies_selected; simpl.
    destruct (negb _); [eauto|].
    destruct (selected_total invoice_df (series_get po_row "po number") Hcol)
      as [[inv|] ->]; eauto.
Qed.

(** ** The engine as a whole *)

Lemma find_discrepancies_unfold po_df invoice_df st :
  find_discrepancies po_df invoice_df st =
    let st' := after_normalize po_df invoice_df st in
    (match scan (st' invoice_df) (iterrows (st' po_df)) [] with
     | Ok ds => Ok (report ds)
     | Raise e => Raise e
     end, st').
Proof.
  unfold find_discrepancies, mbind, M_bind, bind, mret, M_ret, ret, lift, deref,
    after_normalize, normalize_columns; simpl.
  by destruct (scan _ _ []).
Qed.

Lemma after_normalize_rows po_df invoice_df st r :
  rows (after_normalize po_df invoice_df st r) = rows (st r).
Proof.
  unfold after_normalize, normalize_columns, update; simpl.
  destruct (Nat.eqb r invoice_df) eqn:E1.
  - apply Nat.eqb_eq in E1 as ->.
    destruct (Nat.eqb invoice_df po_df) eqn:E2; [|reflexivity].
    by apply Nat.eqb_eq in E2 as ->.
  - destruct (Nat.eqb r po_df) eqn:E2; [|reflexivity].
    by apply Nat.eqb_eq in E2 as ->.
Qed.

Lemma run_unfold po invoice :
  run po invoice =
    match scan (normalized invoice) (iterrows (normalized po)) [] with
    | Ok ds => Ok (report ds)
    | Raise e => Raise e
    end.
Proof. unfold run. by rewrite find_discrepancies_unfold. Qed.

(** [C1] The report is never empty.  Line 101 turns an empty list of
    discrepancies into the single row No discrepancies found! and leaves a
    non-empty list as it is; so whatever report [find_discrepancies] returns
    has at least one row, and it does return one whenever the normalized
    invoice table has a PO-number column. *)
Theorem report_never_empty :
  (∀ discrepancies,
      1 ≤ length (report discrepancies) ∧
      (discrepancies = [] → report discrepancies = [sentinel]) ∧
      (discrepancies ≠ [] → report discrepancies = discrepancies)) ∧
  (∀ po_df invoice_df st out st',
      find_discrepancies po_df invoice_df st = (Ok out, st') →
      1 ≤ length out) ∧
  (∀ po invoice,
      "po number" ∈ columns (normalized invoice) →
      ∃ out, run po invoice = Ok out ∧ 1 ≤ length out).
Proof.
  assert (Hrep : ∀ ds, 1 ≤ length (report ds)).
  { intros [|d ds]; simpl; lia. }
  split; [|split].
  - intros ds. split; [apply Hrep|]. split.
    + by intros ->.
    + by destruct ds.
  - intros po_df invoice_df st out st'. rewrite find_discrepancies_unfold; simpl.
    destruct (scan _ _ []) as [ds|e]; [|done]. intros [= <- _]. apply Hrep.
  - intros po invoice Hcol. rewrite run_unfold.
    destruct (scan_total (normalized invoice) (iterrows (normalized po)) Hcol)
      as [ds ->].
    eauto.
Qed.

Lemma report_never_empty_witness :
  report [] = [sentinel] ∧
  ∃ out, run keyless_po plain_invoice = Ok out ∧ 1 ≤ length out.
Proof.
  destruct report_never_empty as (Hrep & _ & Hrun).
  split.
  - apply (Hrep []). reflexivity.
  - apply Hrun. apply (bool_decide_unpack _). vm_compute. exact I.
Defined.

(** [C7] Scenario A: one PO row and one invoice row for PO1 that differ in
    the vendor only give exactly one record, for the field vendor, with the
    two vendor names. *)
Theorem scenario_A :
  run scenarioA_po scenarioA_invoice
  = Ok [ [("PO Number", VStr "PO1"); ("Field", VStr "vendor");
          ("PO Value", VStr "Acme"); ("Invoice Value", VStr "Acme Corp")] ].
Proof. reflexivity. Qed.

(** ** PO rows without a PO number *)

(** A row whose PO number is missing, or is the empty string, appends
    nothing, and the loop goes on as if the row were not there. *)
Lemma missing_or_empty_string_skipped invoice_df po_row :
  series_get po_row "po number" = VNone ∨
  series_get po_row "po number" = VStr "" →
  row_discrepancies invoice_df po_row = Ok [].
Proof. unfold row_discrepancies. by intros [-> | ->]. Qed.

Lemma skipped_row_invisible invoice_df before po_row after :
  row_discrepancies invoice_df po_row = Ok [] →
  scan invoice_df (before ++ po_row :: after) []
  = scan invoice_df (before ++ after) [].
Proof.
  intros Hskip. induction before as [|r before IH]; simpl.
  - by rewrite Hskip.
  - destruct (row_discrepancies invoice_df r) as [found|e]; [|done].
    rewrite (scan_app _ (before ++ po_row :: after)),
            (scan_app _ (before ++ after)).
    by rewrite IH.
Qed.

(** [C3] A blank PO-number cell is not skipped.  The cell arrives as the
    float nan, which is true under [not], so the row goes on to matching,
    matches nothing and is reported with No matching invoice. *)
Theorem blank_po_number_reported :
  truthy VNaN = true ∧
  row_discrepancies plain_invoice [("po number", VNaN); ("vendor", VStr "Acme")]
    = Ok [no_match VNaN] ∧
  run blank_po plain_invoice
    = Ok [ [("PO Number", VNaN); ("Issue", VStr "No matching invoice")] ].
Proof. repeat split. Qed.

(** ** A table without the PO-number column *)

(** [C5] Without the column in the PO table every row is skipped and the
    report is the sentinel; without the column in the invoice table the
    first PO row that has a PO number makes line 88 raise [KeyError]. *)
Theorem missing_invoice_key_raises :
  run keyless_po scenarioA_invoice = Ok [sentinel] ∧
  frame_get (normalized keyless_invoice) "po number" = None ∧
  run scenarioA_po keyless_invoice = Raise KeyError.
Proof. repeat split. Qed.

Lemma keyless_invoice_raises invoice_df po_rows :
  "po number" ∉ columns invoice_df →
  Exists (fun po_row => truthy (series_get po_row "po number") = true) po_rows →
  scan invoice_df po_rows [] = Raise KeyError.
Proof.
  intros Hcol. induction po_rows as [|po_row rest IH]; intros Hex.
  - by apply Exists_nil in Hex.
  - rewrite scan_cons. unfold row_discrepancies, matching, frame_get.
    rewrite (bool_decide_eq_false_2 _ Hcol).
    destruct (truthy (series_get po_row "po number")) eqn:Ht; simpl; [done|].
    apply Exists_cons in Hex as [Hex|Hex]; [congruence|].
    by rewrite (IH Hex).
Qed.

(** ** Which invoice row a PO row is compared with *)




(** ** How many records a PO row can add *)

(** [C9] A PO row that passes the guard adds exactly one record when no
    invoice row is selected for it and at most four (one per compared
    column) when one is; a skipped row adds none.  So every row adds at most
    four, the list of discrepancies has at most four records per PO row, and
    a report that is not the sentinel has at most 4 x |PO table| rows. *)
Theorem discrepancies_bounded :
  (∀ invoice_df po_row,
      truthy (series_get po_row "po number") = true →
      selected invoice_df (series_get po_row "po number") = Ok None →
      ∃ d, row_discrepancies invoice_df po_row = Ok [d]) ∧
  (∀ invoice_df po_row inv,
      truthy (series_get po_row "po number") = true →
      selected invoice_df (series_get po_row "po number") = Ok (Some inv) →
      ∃ found, row_discrepancies invoice_df po_row = Ok found ∧
               length found ≤ length compared ∧ length compared = 4) ∧
  (∀ invoice_df po_row found,
      row_discrepancies invoice_df po_row = Ok found → length found ≤ 4) ∧
  (∀ po_df invoice_df st out st',
      find_discrepancies po_df invoice_df st = (Ok out, st') →
      out = [sentinel] ∨ length out ≤ 4 * length (rows (st po_df))).
Proof.
  split; [|split; [|split]].
  - intros invoice_df po_row Ht Hsel. rewrite row_discrepancies_selected; simpl.
    rewrite Ht, Hsel; simpl. eauto.
  - intros invoice_df po_row inv Ht Hsel. rewrite row_discrepancies_selected; simpl.
    rewrite Ht, Hsel; simpl. eexists. split; [reflexivity|].
    split; [apply compare_length | reflexivity].
  - apply row_discrepancies_length.
  - intros po_df invoice_df st out st'. rewrite find_discrepancies_unfold; simpl.
    destruct (scan _ _ []) as [ds|e] eqn:Hscan; [|done]. intros [= <- _].
    apply scan_length in Hscan. unfold iterrows in Hscan.
    rewrite length_map, after_normalize_rows in Hscan.
    destruct ds as [|d ds]; [by left | right; exact Hscan].
Qed.

Lemma discrepancies_bounded_witness :
  (∃ d, row_discrepancies plain_invoice [("po number", VStr "PO5")] = Ok [d]) ∧
  (run scenarioA_po scenarioA_invoice = Ok [sentinel] ∨
   ∀ out, run scenarioA_po scenarioA_invoice = Ok out → length out ≤ 4 * 1).
Proof.
  destruct discrepancies_bounded as (Hnone & _ & _ & Hall).
  split.
  - apply Hnone; reflexivity.
  - right. intros out Hout.
    destruct (Hall 0 1 (two_frames scenarioA_po scenarioA_invoice) out
                (find_discrepancies 0 1 (two_frames scenarioA_po scenarioA_invoice)).2)
      as [Hs | Hlen].
    + unfold run in Hout. rewrite <- Hout. by destruct (find_discrepancies _ _ _).
    + subst out. vm_compute in Hout. discriminate Hout.
    + exact Hlen.
Defined.

(** * Further properties of the engine *)

(** ** The renaming, entry by entry *)

Lemma COLUMN_MAP_NoDup : NoDup COLUMN_MAP.
Proof. apply (bool_decide_unpack _). vm_compute. exact I. Qed.

(** No alias is listed under two canonical names. *)
Lemma variants_disjoint item1 item2 v :
  item1 ∈ COLUMN_MAP → item2 ∈ COLUMN_MAP →
  v ∈ item1.2 → v ∈ item2.2 → item1 = item2.
Proof.
  assert (H : Forall (fun i1 : string * list string =>
               Forall (fun i2 : string * list string =>
                 Forall (fun v => v ∈ i2.2 → i1 = i2) i1.2) COLUMN_MAP)
               COLUMN_MAP).
  { apply (bool_decide_unpack _). vm_compute. exact I. }
  rewrite Forall_forall in H. intros H1 H2 Hv1 Hv2.
  specialize (H _ H1). rewrite Forall_forall in H.
  specialize (H _ H2). rewrite Forall_forall in H. by apply (H v).
Qed.

Lemma foldl_add_std_other items df_cols (m : gmap string string) v :
  (∀ item, item ∈ items → v ∉ item.2) →
  foldl (add_std df_cols) m items !! v = m !! v.
Proof.
  revert m. induction items as [|item items IH]; intros m Hno; simpl; [done|].
  rewrite IH by (intros i Hi; apply Hno; by right).
  unfold add_std. destruct (first_variant item.2 df_cols) as [w|] eqn:Hw; [|done].
  apply first_variant_Some in Hw as [Hw _].
  apply lookup_insert_ne. intros ->. by apply (Hno item); [left|].
Qed.

(** The first variant of an entry that occurs among the lower-cased headers
    is a key of the renaming, and it is sent to the entry's name. *)
Lemma build_new_cols_lookup df_cols std variants v :
  (std, variants) ∈ COLUMN_MAP →
  first_variant variants df_cols = Some v →
  build_new_cols df_cols !! v = Some std.
Proof.
  intros Hin Hw. pose proof COLUMN_MAP_NoDup as Hnd.
  pose proof (λ i2, variants_disjoint (std, variants) i2 v Hin) as Hdis.
  unfold build_new_cols. revert Hnd Hdis.
  apply list_elem_of_split in Hin as (l1 & l2 & ->).
  intros Hnd Hdis. rewrite foldl_app; simpl.
  rewrite foldl_add_std_other.
  - unfold add_std; simpl. rewrite Hw. apply lookup_insert_eq.
  - intros item Hitem Hv.
    apply NoDup_app in Hnd as (_ & _ & Hnd). apply NoDup_cons in Hnd as [Hnd _].
    apply Hnd. rewrite (Hdis item); [done| |by apply first_variant_Some in Hw as [? _]|done].
    apply elem_of_app. right. by right.
Qed.

Lemma first_variant_head std variants df_cols :
  head variants = Some std → std ∈ df_cols →
  first_variant variants df_cols = Some std.
Proof.
  destruct variants as [|x vs]; [done|]. intros [= ->] Hin; simpl.
  by rewrite (bool_decide_eq_true_2 _ Hin).
Qed.

Lemma first_variant_is_Some variants df_cols v :
  v ∈ variants → v ∈ df_cols → is_Some (first_variant variants df_cols).
Proof.
  induction variants as [|x vs IH]; intros Hv Hd; simpl.
  - by apply elem_of_nil in Hv.
  - case_bool_decide as Hx; [eauto|].
    apply elem_of_cons in Hv as [->|Hv]; [done | by apply IH].
Qed.

(** Two header lists cannot disagree on the first variant when each
    contains the variant the other one finds. *)
Lemma first_variant_agree variants dc dc' u c :
  first_variant variants dc = Some u →
  first_variant variants dc' = Some c →
  c ∈ dc → u ∈ dc' → u = c.
Proof.
  induction variants as [|x vs IH]; simpl; [done|].
  case_bool_decide as Hx; case_bool_decide as Hx'.
  - by intros [= <-] [= <-].
  - intros [= <-] _ _ Hu. by destruct Hx'.
  - intros _ [= <-] Hc _. by destruct Hx.
  - apply IH.
Qed.

Lemma elem_of_map_lower c (cols : list string) :
  c ∈ cols → lower c ∈ map lower cols.
Proof.
  intros H. change (map ?f ?l) with (f <$> l).
  apply list_elem_of_fmap. by exists c.
Qed.

Lemma canonical_elem std variants : (std, variants) ∈ COLUMN_MAP → std ∈ canonical.
Proof.
  intros H. unfold canonical. change (map ?f ?l) with (f <$> l).
  apply list_elem_of_fmap. by exists (std, variants).
Qed.

(** Normalizing a normalized table changes nothing. *)
Lemma normalized_twice df : normalized (normalized df) = normalized df.
Proof.
  assert (Hcols : ∀ c', c' ∈ columns (normalized df) →
            ∀ s', build_new_cols (map lower (columns (normalized df))) !! c' = Some s' →
                  s' = c').
  { intros c' Hc' s' Hs'. unfold normalized at 1, rename in Hc'; simpl in Hc'.
    change (map ?f ?l) with (f <$> l) in Hc'.
    apply list_elem_of_fmap in Hc' as (c & -> & Hc).
    set (dc := map lower (columns df)) in *.
    set (dc' := map lower (columns (normalized df))) in *.
    apply build_new_cols_first in Hs' as (vs' & Hin' & Hw').
    destruct (build_new_cols dc !! c) as [std|] eqn:Hm; simpl in *.
    - apply build_new_cols_key in Hm as (_ & vs & Hin & _).
      apply first_variant_Some in Hw' as [Hv' _]. symmetry.
      eapply canonical_variant; [exact Hin' | exact Hv' | by eapply canonical_elem].
    - pose proof (first_variant_Some _ _ _ Hw') as [Hcv _].
      assert (Hcd : c ∈ dc).
      { rewrite <- (variants_lower _ _ _ Hin' Hcv). by apply elem_of_map_lower. }
      destruct (first_variant_is_Some vs' dc c Hcv Hcd) as [u Hu].
      pose proof (build_new_cols_lookup dc s' vs' u Hin' Hu) as Hmu.
      assert (Hs : s' ∈ dc').
      { destruct (decide (u ∈ dc')) as [Hud|Hud].
        { pose proof (first_variant_agree _ _ _ _ _ Hu Hw' Hcd Hud). congruence. }
        pose proof (first_variant_Some _ _ _ Hu) as [Huv Hudc].
        unfold dc in Hudc. change (map ?f ?l) with (f <$> l) in Hudc.
        apply list_elem_of_fmap in Hudc as (d & Hd & Hdin).
        assert (Hρ : default d (build_new_cols dc !! d) ∈ columns (normalized df)).
        { unfold normalized, rename; simpl.
          change (map ?f ?l) with (f <$> l).
          apply list_elem_of_fmap. by exists d. }
        destruct (build_new_cols dc !! d) as [sd|] eqn:Hmd; simpl in Hρ.
        - assert (d = u) as ->.
          { apply build_new_cols_key in Hmd as (_ & vd & Hvd & Hdv).
            by rewrite Hd, (variants_lower _ _ _ Hvd Hdv). }
          assert (sd = s') as -> by congruence.
          rewrite <- (canonical_lower s' (canonical_elem _ _ Hin')).
          by apply elem_of_map_lower.
        - destruct Hud. rewrite Hd. by apply elem_of_map_lower. }
      pose proof (first_variant_head s' vs' dc' (canonical_first _ _ Hin') Hs).
      congruence. }
  unfold normalized at 1, rename.
  destruct (normalized df) as [cols rs]; simpl in *. f_equal.
  generalize dependent (build_new_cols (map lower cols)). intros m' Hcols.
  induction cols as [|c cols IH]; simpl; [done|]. f_equal.
  - destruct (m' !! c) as [s'|] eqn:E; simpl; [|done].
    apply (Hcols c); [left | done].
  - apply IH. intros c' Hc'. apply Hcols. by right.
Qed.

(** Calling [normalize_columns] a second time on the same object changes
    nothing more: the store is the one the first call left. *)
Theorem normalize_columns_idempotent (df : ref) (st : store) (r : ref) :
  (normalize_columns df (normalize_columns df st).2).1 = Ok df ∧
  (normalize_columns df (normalize_columns df st).2).2 r
  = (normalize_columns df st).2 r.
Proof.
  split; [done|]. unfold normalize_columns, update; simpl.
  rewrite Nat.eqb_refl. destruct (Nat.eqb r df); [|done].
  apply normalized_twice.
Qed.

(** Which columns are renamed, and to what.  A label changes only into the
    canonical name of an entry whose first variant among the lower-cased
    headers is that very label; and the label that is this first variant is
    always renamed to the entry's name. *)
Theorem first_alias_renamed (df : DataFrame) (i : nat) (c : string) :
  columns df !! i = Some c →
  (∀ c', columns (normalized df) !! i = Some c' →
         c' = c ∨
         ∃ variants, (c', variants) ∈ COLUMN_MAP ∧
                     first_variant variants (map lower (columns df)) = Some c) ∧
  (∀ std variants,
      (std, variants) ∈ COLUMN_MAP →
      first_variant variants (map lower (columns df)) = Some c →
      columns (normalized df) !! i = Some std).
Proof.
  intros Hc. rewrite (normalized_column df i c Hc). split.
  - intros c' [= <-].
    destruct (build_new_cols _ !! c) as [std|] eqn:E; simpl; [|by left].
    right. by apply build_new_cols_first.
  - intros std vs Hin Hw. by rewrite (build_new_cols_lookup _ _ _ _ Hin Hw).
Qed.

Lemma first_alias_renamed_witness :
  columns (normalized supplier_table) !! 2 = Some "vendor" ∧
  (columns (normalized supplier_table) !! 1 = Some "Supplier" →
   "Supplier" = "Supplier" ∨
   ∃ variants, ("Supplier", variants) ∈ COLUMN_MAP ∧
     first_variant variants (map lower (columns supplier_table)) = Some "Supplier").
Proof.
  split.
  - apply (proj2 (first_alias_renamed supplier_table 2 "supplier" eq_refl)
             "vendor" ["vendor"; "supplier"; "vendor name"; "supplier name"]).
    + apply (bool_decide_unpack _). vm_compute. exact I.
    + reflexivity.
  - apply (proj1 (first_alias_renamed supplier_table 1 "Supplier" eq_refl)).
Defined.

(** The store after lines 81 and 82, object by object: the two tables are
    normalized once, also when both names denote one object. *)
Lemma after_normalize_eq po_df invoice_df st r :
  after_normalize po_df invoice_df st r =
    if (Nat.eqb r invoice_df || Nat.eqb r po_df)%bool
    then normalized (st r) else st r.
Proof.
  unfold after_normalize, normalize_columns, update; simpl.
  destruct (Nat.eqb r invoice_df) eqn:E1; simpl.
  - apply Nat.eqb_eq in E1 as ->.
    destruct (Nat.eqb invoice_df po_df) eqn:E2; [|done].
    apply Nat.eqb_eq in E2 as ->. apply normalized_twice.
  - by destruct (Nat.eqb r po_df) eqn:E2; [apply Nat.eqb_eq in E2 as ->|].
Qed.

(** The report depends on the contents of the two tables only: not on which
    objects hold them, not on any other object, and not on whether the PO
    table and the invoice table are one and the same object.  Afterwards
    the two objects hold the normalized tables and nothing else changed. *)
Theorem find_discrepancies_by_content (po_df invoice_df : ref) (st : store) :
  (find_discrepancies po_df invoice_df st).1 = run (st po_df) (st invoice_df) ∧
  ∀ r, (find_discrepancies po_df invoice_df st).2 r =
         if (Nat.eqb r invoice_df || Nat.eqb r po_df)%bool
         then normalized (st r) else st r.
Proof.
  rewrite find_discrepancies_unfold; simpl. split.
  - rewrite run_unfold, !after_normalize_eq.
    by rewrite Nat.eqb_refl, Nat.eqb_refl, orb_true_r.
  - intros r. apply after_normalize_eq.
Qed.

(** Running the engine again on the objects it has already normalized gives
    the same outcome and leaves every object as the first run left it. *)
Theorem find_discrepancies_again (po_df invoice_df : ref) (st : store) :
  let first := find_discrepancies po_df invoice_df st in
  (find_discrepancies po_df invoice_df first.2).1 = first.1 ∧
  ∀ r, (find_discrepancies po_df invoice_df first.2).2 r = first.2 r.
Proof.
  simpl. rewrite !find_discrepancies_unfold; simpl. split.
  - rewrite !after_normalize_eq, !Nat.eqb_refl, !orb_true_r; simpl.
    by rewrite !normalized_twice.
  - intros r. rewrite !after_normalize_eq.
    destruct (_ || _)%bool; [apply normalized_twice | done].
Qed.

(** ** When the engine raises, and when it reports nothing *)

Lemma series_get_absent (cols : list string) (r : list value) key :
  key ∉ cols → series_get (zip cols r) key = VNone.
Proof.
  revert r. induction cols as [|c cols IH]; intros r Hno; [done|].
  destruct r as [|x r]; [done|]. simpl.
  destruct (String.eqb_spec c key) as [->|_].
  - destruct Hno. left.
  - apply IH. intros H. apply Hno. by right.
Qed.

(** A cell read from a row is a cell of the row, or [None]. *)
Lemma series_get_cell (cols : list string) (r : list value) key :
  series_get (zip cols r) key = VNone ∨ series_get (zip cols r) key ∈ r.
Proof.
  revert r. induction cols as [|c cols IH]; intros r; [by left|].
  destruct r as [|x r]; [by left|]. simpl.
  destruct (String.eqb c key); [right; left|].
  destruct (IH r) as [H|H]; [by left | right; by right].
Qed.

Lemma scan_all_empty invoice_df po_rows :
  Forall (fun po_row => row_discrepancies invoice_df po_row = Ok []) po_rows →
  scan invoice_df po_rows [] = Ok [].
Proof.
  induction 1 as [|po_row rest Hrow _ IH]; [done|].
  by rewrite scan_cons, Hrow, IH.
Qed.

Lemma falsy_row_skipped invoice_df po_row :
  truthy (series_get po_row "po number") = false →
  row_discrepancies invoice_df po_row = Ok [].
Proof. unfold row_discrepancies. by intros ->. Qed.

(** The engine raises in one situation only: the normalized invoice table
    has no PO-number column and some PO row has a PO number that passes the
    guard.  The exception is then the [KeyError] of line 88; [iloc[0]] never
    fails. *)
Theorem raises_exactly_without_invoice_key (po invoice : DataFrame) (e : exn) :
  run po invoice = Raise e ↔
  e = KeyError ∧
  ("po number" ∉ columns (normalized invoice)) ∧
  Exists (fun po_row => truthy (series_get po_row "po number") = true)
         (iterrows (normalized po)).
Proof.
  rewrite run_unfold. split.
  - intros Hrun.
    destruct (decide ("po number" ∈ columns (normalized invoice))) as [Hcol|Hcol].
    { destruct (scan_total (normalized invoice) (iterrows (normalized po)) Hcol)
        as [ds Hds]. by rewrite Hds in Hrun. }
    destruct (decide (Exists (fun po_row => truthy (series_get po_row "po number") = true)
                             (iterrows (normalized po)))) as [Hex|Hex].
    + rewrite (keyless_invoice_raises _ _ Hcol Hex) in Hrun.
      by injection Hrun as <-.
    + apply not_Exists_Forall in Hex; [|intros row; apply _].
      rewrite scan_all_empty in Hrun; [done|].
      eapply Forall_impl; [exact Hex|]. intros row Hrow; simpl in Hrow.
      apply falsy_row_skipped. by destruct (truthy _).
  - intros (-> & Hcol & Hex). by rewrite (keyless_invoice_raises _ _ Hcol Hex).
Qed.

Lemma raises_exactly_without_invoice_key_witness :
  run scenarioA_po keyless_invoice = Raise KeyError.
Proof.
  apply (proj2 (raises_exactly_without_invoice_key
                  scenarioA_po keyless_invoice KeyError)).
  split; [reflexivity|]. split.
  - apply (bool_decide_unpack _). vm_compute. exact I.
  - apply Exists_cons. left. reflexivity.
Defined.

(** A PO table that has no PO-number column after normalization is read as
    having nothing to reconcile: whatever the invoice table is, also one
    without the column, the report is the sentinel row. *)
Theorem keyless_po_reports_nothing (po invoice : DataFrame) :
  "po number" ∉ columns (normalized po) →
  run po invoice = Ok [sentinel].
Proof.
  intros Hcol. rewrite run_unfold, scan_all_empty; [done|].
  unfold iterrows. apply Forall_forall. intros row Hrow.
  change (map ?f ?l) with (f <$> l) in Hrow.
  apply list_elem_of_fmap in Hrow as (r & -> & _).
  apply falsy_row_skipped. by rewrite series_get_absent.
Qed.

Lemma keyless_po_reports_nothing_witness :
  run keyless_po keyless_invoice = Ok [sentinel].
Proof.
  apply keyless_po_reports_nothing.
  apply (bool_decide_unpack _). vm_compute. exact I.
Defined.

(** ** Order of the report *)

Lemma scan_rows_app invoice_df l1 l2 acc :
  scan invoice_df (l1 ++ l2) acc =
    match scan invoice_df l1 acc with
    | Ok ds => scan invoice_df l2 ds
    | Raise e => Raise e
    end.
Proof.
  revert acc. induction l1 as [|po_row l1 IH]; intros acc; simpl; [done|].
  by destruct (row_discrepancies invoice_df po_row).
Qed.

(** The records follow the PO table: the records of a table made of two
    runs of rows are those of the first run followed by those of the
    second, and a raise in the second run discards the records of the
    first. *)
Theorem discrepancies_in_table_order invoice_df (l1 l2 : list Series) ds1 :
  scan invoice_df l1 [] = Ok ds1 →
  scan invoice_df (l1 ++ l2) [] =
    match scan invoice_df l2 [] with
    | Ok ds2 => Ok (ds1 ++ ds2)
    | Raise e => Raise e
    end.
Proof. intros H1. by rewrite scan_rows_app, H1, scan_app. Qed.

Lemma discrepancies_in_table_order_witness :
  scan plain_invoice
    [[("po number", VStr "PO4")]; [("po number", VStr "PO5")]] []
  = Ok [no_match (VStr "PO4"); no_match (VStr "PO5")].
Proof.
  exact (discrepancies_in_table_order plain_invoice
           [[("po number", VStr "PO4")]] [[("po number", VStr "PO5")]]
           [no_match (VStr "PO4")] eq_refl).
Defined.

(** ** Blank cells and a table reconciled with itself *)

(** A cell differs from itself under [!=] exactly when it is [nan]. *)
Lemma py_ne_self v : py_ne v v = true ↔ v = VNaN.
Proof.
  destruct v as [| |s|z]; simpl; split; try done.
  - by rewrite String.eqb_refl.
  - by rewrite Z.eqb_refl.
Qed.

Lemma compare_self po_number row :
  Forall (fun col => series_get row col ≠ VNaN) compared →
  compare po_number row row = [].
Proof.
  unfold compare. induction 1 as [|col cols Hcol _ IH]; simpl; [done|].
  rewrite IH. destruct (py_ne _ _) eqn:E; [|done].
  by apply py_ne_self in E.
Qed.

Lemma cell_eq_self v : truthy v = true → v ≠ VNaN → cell_eq v v = true.
Proof.
  destruct v as [| |s|z]; simpl; try done; intros _ _.
  - apply String.eqb_refl.
  - apply Z.eqb_refl.
Qed.

Lemma plain_cell_not_nan (r : list value) :
  Forall (fun v => plain_cell v = true) r → VNaN ∉ r.
Proof.
  intros Hr Hin. rewrite Forall_forall in Hr. by specialize (Hr _ Hin).
Qed.

(** A table whose cells are all strings or integers within the range
    float64 holds exactly (no blank cell, no [None]), and in which no PO
    number occurs twice, reconciled with itself, gives the sentinel row. *)
Theorem reconciled_with_itself (df : DataFrame) :
  let key r := series_get (zip (columns (normalized df)) r) "po number" in
  Forall (Forall (fun v => plain_cell v = true)) (rows df) →
  (∀ before r after,
      rows df = before ++ r :: after →
      Forall (fun r' => cell_eq (key r') (key r) = false) before) →
  run df df = Ok [sentinel].
Proof.
  intros key Hplain Hdistinct.
  assert (Hnan : Forall (fun r => VNaN ∉ r) (rows df)).
  { eapply Forall_impl; [exact Hplain|]. apply plain_cell_not_nan. }
  rewrite run_unfold, scan_all_empty; [done|].
  unfold iterrows. rewrite normalized_rows.
  apply Forall_forall. intros row Hrow.
  change (map ?f ?l) with (f <$> l) in Hrow.
  apply list_elem_of_fmap in Hrow as (r & -> & Hr).
  assert (Hcells : ∀ col, series_get (zip (columns (normalized df)) r) col ≠ VNaN).
  { intros col Hcol.
    destruct (series_get_cell (columns (normalized df)) r col) as [H|H];
      [congruence|].
    rewrite Hcol in H. rewrite Forall_forall in Hnan. by apply (Hnan r). }
  destruct (truthy (key r)) eqn:Ht; [|by apply falsy_row_skipped].
  assert (Hcol : "po number" ∈ columns (normalized df)).
  { destruct (decide ("po number" ∈ columns (normalized df))) as [H|H]; [done|].
    unfold key in Ht. by rewrite series_get_absent in Ht. }
  apply list_elem_of_split in Hr as (before & after & Hrows).
  rewrite row_discrepancies_selected. cbv zeta. fold (key r). rewrite Ht.
  cbn [negb].
  rewrite (selected_first (normalized df) (key r) before r after Hcol).
  - by rewrite compare_self; [|apply Forall_forall; intros col _; apply Hcells].
  - by rewrite normalized_rows.
  - by apply (Hdistinct before r after).
  - apply cell_eq_self; [done | apply Hcells].
Qed.

Lemma reconciled_with_itself_witness :
  run duplicate_invoice duplicate_invoice ≠ Ok [sentinel] ∧
  run scenarioA_invoice scenarioA_invoice = Ok [sentinel].
Proof.
  split; [discriminate|].
  apply reconciled_with_itself.
  - repeat constructor.
  - intros before r after Hrows. simpl in Hrows.
    destruct before as [|r0 before]; [constructor|].
    destruct before; discriminate Hrows.
Defined.

(** ** Invoice rows that no PO row refers to *)

(** With integers within the range float64 holds exactly, an invoice row
    whose PO number equals that of no PO row leaves no trace: with or
    without it, the records are the same.  The engine reports PO rows
    without an invoice, never invoice rows without a PO. *)
Theorem unreferenced_invoice_row_ignored
    (cols : list string) (before : list (list value)) (r : list value)
    (after : list (list value)) (po_rows : list Series) :
  Forall (Forall (fun v => float_exact v = true)) (before ++ r :: after) →
  Forall (Forall (fun cell : string * value => float_exact cell.2 = true))
         po_rows →
  Forall (fun po_row =>
            cell_eq (series_get (zip cols r) "po number")
                    (series_get po_row "po number") = false) po_rows →
  scan {| columns := cols; rows := before ++ r :: after |} po_rows []
  = scan {| columns := cols; rows := before ++ after |} po_rows [].
Proof.
  intros _ _ Hall.
  assert (Hrow : Forall (fun po_row =>
            row_discrepancies {| columns := cols; rows := before ++ r :: after |} po_row
            = row_discrepancies {| columns := cols; rows := before ++ after |} po_row)
            po_rows).
  { eapply Forall_impl; [exact Hall|]. intros po_row Hne; simpl in Hne.
    unfold row_discrepancies.
    destruct (negb _); [done|].
    destruct (decide ("po number" ∈ cols)) as [Hcol|Hcol].
    - rewrite (matching_rows {| columns := cols; rows := before ++ r :: after |} _ Hcol),
              (matching_rows {| columns := cols; rows := before ++ after |} _ Hcol).
      simpl. rewrite !filter_app, filter_cons_False; [done|].
      rewrite Hne. by intros [].
    - unfold matching, frame_get; simpl.
      by rewrite (bool_decide_eq_false_2 _ Hcol). }
  clear Hall. induction Hrow as [|po_row rest Heq _ IH]; [done|].
  by rewrite !scan_cons, Heq, IH.
Qed.

Lemma unreferenced_invoice_row_ignored_witness :
  scan duplicate_invoice [[("po number", VStr "PO1"); ("vendor", VStr "Acme")]] []
  = scan {| columns := ["po number"; "vendor"];
            rows := [[VStr "PO1"; VStr "Acme"]; [VStr "PO1"; VStr "Other"]] |}
         [[("po number", VStr "PO1"); ("vendor", VStr "Acme")]] [].
Proof.
  apply (unreferenced_invoice_row_ignored ["po number"; "vendor"] []
           [VStr "PO0"; VStr "Zeta"]
           [[VStr "PO1"; VStr "Acme"]; [VStr "PO1"; VStr "Other"]]);
    repeat constructor.
Defined.

(** ** The frame of the report *)

Lemma compare_keys po_number po_row inv :
  Forall (fun d : dict => map fst d = mismatch_keys) (compare po_number po_row inv).
Proof.
  unfold compare. induction compared as [|col cols IH]; simpl; [constructor|].
  destruct (py_ne _ _); simpl; [constructor; [reflexivity|]|]; exact IH.
Qed.

Lemma row_discrepancies_keys invoice_df po_row found :
  row_discrepancies invoice_df po_row = Ok found →
  Forall (fun d : dict => map fst d = no_match_keys ∨ map fst d = mismatch_keys) found.
Proof.
  rewrite row_discrepancies_selected; simpl.
  destruct (negb _); [intros [= <-]; constructor|].
  destruct (selected _ _) as [[inv|]|e]; intros [= <-].
  - eapply Forall_impl; [apply compare_keys|]. intros d Hd; by right.
  - constructor; [by left | constructor].
Qed.

Lemma scan_keys invoice_df po_rows ds :
  scan invoice_df po_rows [] = Ok ds →
  Forall (fun d : dict => map fst d = no_match_keys ∨ map fst d = mismatch_keys) ds.
Proof.
  revert ds. induction po_rows as [|po_row rest IH]; intros ds.
  - intros [= <-]. constructor.
  - rewrite scan_cons.
    destruct (row_discrepancies invoice_df po_row) as [found|e] eqn:Hrow; [|done].
    destruct (scan invoice_df rest []) as [more|e]; [|done].
    intros [= <-]. apply Forall_app. split; [by eapply row_discrepancies_keys | by apply IH].
Qed.

Lemma record_columns_shapes (ds : list dict) (cols : list string) :
  Forall (fun d : dict => map fst d = no_match_keys ∨ map fst d = mismatch_keys) ds →
  cols ∈ record_shapes →
  foldl (fun cols d => foldl add_key cols (map fst d)) cols ds ∈ record_shapes.
Proof.
  intros Hds. revert cols. induction Hds as [|d ds Hd _ IH]; intros cols Hcols; [done|].
  simpl. apply IH.
  assert (Hstep : Forall (fun s => Forall (fun k => foldl add_key s k ∈ record_shapes)
                                     [no_match_keys; mismatch_keys]) record_shapes).
  { apply (bool_decide_unpack _). vm_compute. exact I. }
  rewrite Forall_forall in Hstep. specialize (Hstep _ Hcols).
  rewrite Forall_forall in Hstep. apply Hstep.
  destruct Hd as [-> | ->]; [left | right; left].
Qed.

(** The frame [find_discrepancies] returns has one row per record, each row
    with one cell per column, and one of five column lists: the single
    column Message for the sentinel, or PO Number followed by the columns of
    the unmatched rows, of the mismatches, or of both in the order in which
    the two kinds first occur.  Message never stands beside another column. *)
Theorem report_frame_shape (po invoice : DataFrame) (out : list dict) :
  run po invoice = Ok out →
  let frame := frame_of_records out in
  columns frame ∈ ["Message"] :: record_shapes ∧
  (columns frame = ["Message"] ↔ out = [sentinel]) ∧
  length (rows frame) = length out ∧
  Forall (fun r => length r = length (columns frame)) (rows frame).
Proof.
  rewrite run_unfold.
  destruct (scan _ _ []) as [ds|e] eqn:Hscan; [|done]. intros [= <-].
  apply scan_keys in Hscan. simpl. split; [|split; [|split]].
  - destruct ds as [|d ds]; [left|]. right.
    simpl. unfold record_columns. simpl. apply Forall_cons in Hscan as [Hd Hds].
    apply record_columns_shapes; [done|].
    destruct Hd as [-> | ->]; vm_compute; [left | right; left].
  - destruct ds as [|d ds]; [done|]. simpl. split; [|intros [= -> ->]; done].
    intros Hmsg. exfalso.
    assert (H : record_columns (d :: ds) ∈ record_shapes).
    { unfold record_columns. simpl. apply Forall_cons in Hscan as [Hd Hds].
      apply record_columns_shapes; [done|].
      destruct Hd as [-> | ->]; vm_compute; [left | right; left]. }
    rewrite Hmsg in H. revert H. apply (bool_decide_unpack _). vm_compute. exact I.
  - by rewrite length_map.
  - apply Forall_forall. intros r Hr.
    change (map ?f ?l) with (f <$> l) in Hr.
    apply list_elem_of_fmap in Hr as (d & -> & _). by rewrite length_map.
Qed.

Lemma report_frame_shape_witness :
  columns (frame_of_records
             [mismatch (VStr "PO1") "vendor" (VStr "Acme") (VStr "Acme Corp")])
    ∈ ["Message"] :: record_shapes.
Proof.
  exact (proj1 (report_frame_shape scenarioA_po scenarioA_invoice _ eq_refl)).
Defined.

(** ** File names *)

Lemma lower_ascii_dot c : Ascii.eqb (lower_ascii c) "." = Ascii.eqb c ".".
Proof. destruct c as [[] [] [] [] [] [] [] []]; reflexivity. Qed.

(** The two shapes of a split at the last dot. *)
Lemma rsplit_dot_shape s :
  (has_dot s = false ∧ rsplit_dot s = [s]) ∨
  (has_dot s = true ∧
   ∃ h t, rsplit_dot s = [h; t] ∧ has_dot t = false ∧ s = h +:+ "." +:+ t).
Proof.
  induction s as [|c s IH]; simpl; [by left|].
  destruct IH as [[Hno ->] | (Hdot & h & t & -> & Ht & Hs)].
  - rewrite Hno, orb_false_r. destruct (Ascii.eqb_spec c ".") as [->|Hc].
    + right. split; [done|]. by exists "", s.
    + by left.
  - rewrite Hdot, orb_true_r. right. split; [done|].
    exists (String c h), t. by rewrite Hs.
Qed.

Lemma has_dot_lower s : has_dot (lower s) = has_dot s.
Proof. induction s as [|c s IH]; simpl; [done|]. by rewrite lower_ascii_dot, IH. Qed.

Lemma rsplit_dot_lower s : rsplit_dot (lower s) = map lower (rsplit_dot s).
Proof.
  induction s as [|c s IH]; simpl; [done|]. rewrite IH, lower_ascii_dot.
  destruct (rsplit_dot_shape s) as [[_ ->] | (_ & h & t & -> & _)]; simpl; [|done].
  by destruct (Ascii.eqb c ".").
Qed.

(** Ending with a dot and a dot-free extension is having that extension
    after the last dot. *)
Lemma endswith_extension s ext :
  has_dot ext = false →
  endswith s (String "." ext) = true ↔
  has_dot s = true ∧ rsplit_dot s !! 1 = Some ext.
Proof.
  intros Hext. induction s as [|c s IH]; simpl; [by split; [|intros []]|].
  destruct (rsplit_dot_shape s) as [[Hno Hs] | (Hdot & h & t & Hs & Ht & Heq)];
    rewrite Hs.
  - rewrite Hno, orb_false_r.
    assert (Hend : endswith s (String "." ext) = false).
    { apply not_true_is_false. intros E. apply IH in E as [E _]. congruence. }
    rewrite Hend, orb_false_r.
    destruct (Ascii.eqb_spec c ".") as [->|Hc]; simpl.
    + destruct (String.eqb_spec s ext) as [->|Hne]; split; try done.
      * intros [_ [= ->]]. done.
    + split; [done | by intros []].
  - rewrite Hdot, orb_true_r. simpl.
    split.
    + intros H. split; [done|]. apply orb_true_iff in H as [H|H].
      * apply andb_true_iff in H as [Hc H]. apply String.eqb_eq in H as ->.
        congruence.
      * apply IH in H as [_ H]. by rewrite Hs in H.
    + intros [_ H]. apply orb_true_iff. right. apply IH. by rewrite Hs.
Qed.

Lemma endswith_extension_bool s ext :
  has_dot ext = false →
  endswith s (String "." ext) =
    (has_dot s && bool_decide (rsplit_dot s !! 1 = Some ext))%bool.
Proof.
  intros Hext. apply eq_iff_eq_true.
  rewrite (endswith_extension s ext Hext), andb_true_iff, bool_decide_eq_true.
  done.
Qed.

(** The reader chosen for a path, read off the extension after the last
    dot. *)
Lemma extract_data_extension path :
  extract_data path =
    if has_dot path
    then match rsplit_dot path !! 1 with
         | Some ext =>
             if bool_decide (lower ext = "xls" ∨ lower ext = "xlsx") then Some ReadExcel
             else if bool_decide (lower ext = "pdf") then Some ReadPdf
             else None
         | None => None
         end
    else None.
Proof.
  unfold extract_data; simpl.
  rewrite (endswith_extension_bool (lower path) "xls" eq_refl),
          (endswith_extension_bool (lower path) "xlsx" eq_refl),
          (endswith_extension_bool (lower path) "pdf" eq_refl).
  rewrite has_dot_lower, rsplit_dot_lower.
  change (map ?f ?l) with (f <$> l). rewrite list_lookup_fmap.
  destruct (has_dot path); [|done]. simpl.
  destruct (rsplit_dot path !! 1) as [ext|]; simpl; [|done].
  generalize (lower ext). intros e.
  destruct (decide (e = "xls")) as [->|H1]; [done|].
  destruct (decide (e = "xlsx")) as [->|H2]; [done|].
  destruct (decide (e = "pdf")) as [->|H3]; [done|].
  rewrite (bool_decide_eq_false_2 (Some e = Some "xls")) by congruence.
  rewrite (bool_decide_eq_false_2 (Some e = Some "xlsx")) by congruence.
  rewrite (bool_decide_eq_false_2 (Some e = Some "pdf")) by congruence.
  rewrite (bool_decide_eq_false_2 (e = "xls" ∨ e = "xlsx")) by (by intros [|]).
  by rewrite (bool_decide_eq_false_2 (e = "pdf")).
Qed.

Lemma allowed_extension e :
  e ∈ ALLOWED_EXTENSIONS ↔ e = "pdf" ∨ e = "xlsx" ∨ e = "xls".
Proof.
  unfold ALLOWED_EXTENSIONS.
  rewrite !elem_of_union, !elem_of_singleton. tauto.
Qed.

(** [allowed_file] never fails on its index, and it accepts exactly the
    names for which [extract_data] finds a reader: the part after the last
    dot, in any case, is pdf, xlsx or xls.  A name without a dot is refused
    by both. *)
Theorem allowed_file_iff_reader (path : string) :
  (∃ b, allowed_file path = Some b) ∧
  (allowed_file path = Some true ↔ is_Some (extract_data path)) ∧
  (has_dot path = false → allowed_file path = Some false ∧ extract_data path = None).
Proof.
  rewrite extract_data_extension. unfold allowed_file.
  destruct (rsplit_dot_shape path) as [[Hno _] | (Hdot & h & t & -> & _ & _)].
  - rewrite Hno. split; [eauto|]. split; [|done].
    split; [done | by intros [? ?]].
  - rewrite Hdot. simpl. split; [eauto|]. split; [|done].
    generalize (lower t). intros e. split.
    + intros [= H]. apply bool_decide_eq_true in H. apply allowed_extension in H.
      destruct H as [->|[->| ->]]; vm_compute; eauto.
    + intros H. f_equal. apply bool_decide_eq_true, allowed_extension.
      case_bool_decide as H1; [tauto|].
      case_bool_decide as H2; [tauto|]. by destruct H as [? ?].
Qed.

Lemma allowed_file_iff_reader_witness :
  allowed_file "notes" = Some false ∧ extract_data "notes" = None.
Proof.
  exact (proj2 (proj2 (allowed_file_iff_reader "notes")) eq_refl).
Defined.

Lemma has_dot_app p s : has_dot (p +:+ s) = (has_dot p || has_dot s)%bool.
Proof.
  induction p as [|c p IH]; simpl; [done|]. by rewrite IH, orb_assoc.
Qed.

Lemma rsplit_dot_app p s h t :
  rsplit_dot s = [h; t] → rsplit_dot (p +:+ s) = [p +:+ h; t].
Proof.
  intros Hs. induction p as [|c p IH]; simpl; [done|]. by rewrite IH.
Qed.

(** Whatever is put in front of a name that [allowed_file] accepts (the
    upload folder, a random prefix), [extract_data] finds the same reader
    for the resulting path as for the name: the check on the name and the
    dispatch on the path agree. *)
Theorem accepted_name_has_reader (dir name : string) :
  allowed_file name = Some true →
  is_Some (extract_data (dir +:+ name)) ∧
  extract_data (dir +:+ name) = extract_data name.
Proof.
  intros Hok.
  assert (Hsame : extract_data (dir +:+ name) = extract_data name).
  { rewrite !extract_data_extension, has_dot_app.
    unfold allowed_file in Hok.
    destruct (rsplit_dot_shape name) as [[Hno _] | (Hdot & h & t & Hs & _ & _)].
    - by rewrite Hno in Hok.
    - by rewrite Hdot, orb_true_r, (rsplit_dot_app dir name h t Hs), Hs. }
  split; [|done]. rewrite Hsame.
  by apply (proj1 (proj2 (allowed_file_iff_reader name))).
Qed.

Lemma accepted_name_has_reader_witness :
  extract_data ("uploads/0f3a_" +:+ "Invoice.PDF") = extract_data "Invoice.PDF".
Proof.
  exact (proj2 (accepted_name_has_reader "uploads/0f3a_" "Invoice.PDF" eq_refl)).
Defined.

(** ** Download names *)

Lemma is_hex_not_dot c : is_hex c = true → Ascii.eqb "." c = false.
Proof. destruct c as [[] [] [] [] [] [] [] []]; done. Qed.

Lemma contains_dots_hex uid rest :
  hex_string uid = true →
  contains ".." (uid +:+ rest) = contains ".." rest.
Proof.
  induction uid as [|c uid IH]; [done|].
  intros H. apply andb_true_iff in H as [Hc Hu].
  change (contains ".." (String c uid +:+ rest)) with
    ((Ascii.eqb "." c && startswith (uid +:+ rest) ".")
     || contains ".." (uid +:+ rest))%bool.
  by rewrite (is_hex_not_dot c Hc), IH.
Qed.

Lemma contains_cons_not_dot c s :
  Ascii.eqb "." c = false → contains ".." (String c s) = contains ".." s.
Proof.
  intros Hc.
  change (contains ".." (String c s)) with
    ((Ascii.eqb "." c && startswith s ".") || contains ".." s)%bool.
  by rewrite Hc.
Qed.

Lemma report_prefix s :
  "report_" +:+ s =
  String "r" (String "e" (String "p" (String "o" (String "r" (String "t"
    (String "_" s)))))).
Proof. reflexivity. Qed.

(** The download routes accept every report name that [home] hands out. *)
Theorem report_names_downloadable (uid : string) :
  hex_string uid = true →
  download_refused (excel_filename uid) = false ∧
  download_refused (pdf_filename uid) = false.
Proof.
  intros Hhex. unfold download_refused, excel_filename, pdf_filename.
  rewrite !report_prefix, !contains_cons_not_dot by reflexivity.
  by rewrite !(contains_dots_hex uid _ Hhex).
Qed.

Lemma report_names_downloadable_witness :
  download_refused (excel_filename "9c0de4a1") = false ∧
  download_refused (pdf_filename "9c0de4a1") = false.
Proof. exact (report_names_downloadable "9c0de4a1" eq_refl). Defined.

Lemma split_on_first sep s w ws :
  split_on sep s = w :: ws → startswith s w = true.
Proof.
  revert w ws. induction s as [|c s IH]; intros w ws; cbn -[Ascii.eqb].
  - by intros [= <- _].
  - destruct (Ascii.eqb c sep); [by intros [= <- _]|].
    destruct (split_on sep s) as [|w' ws'] eqn:E.
    + intros [= <- _]. cbn -[Ascii.eqb].
      rewrite Ascii.eqb_refl. by destruct s.
    + intros [= <- _]. cbn -[Ascii.eqb]. by rewrite Ascii.eqb_refl, (IH w' ws').
Qed.

Lemma parent_component_contained s :
  ".." ∈ split_on "/" s → contains ".." s = true.
Proof.
  induction s as [|c s IH]; cbn -[Ascii.eqb].
  - intros H. apply list_elem_of_singleton in H. discriminate H.
  - destruct (Ascii.eqb_spec c "/") as [->|Hc].
    + intros H. apply elem_of_cons in H as [H|H]; [discriminate H|].
      by rewrite (IH H), orb_true_r.
    + destruct (split_on "/" s) as [|w ws] eqn:E.
      * intros H. apply list_elem_of_singleton in H. discriminate H.
      * intros H. apply elem_of_cons in H as [H|H].
        -- injection H as <- <-. apply split_on_first in E.
           by rewrite Ascii.eqb_refl, E.
        -- rewrite IH; [by rewrite orb_true_r | by right].
Qed.

(** A name the download routes let through is relative and has no
    component [..] between its slashes. *)
Theorem accepted_download_stays_inside (filename : string) :
  download_refused filename = false →
  startswith filename "/" = false ∧ ".." ∉ split_on "/" filename.
Proof.
  unfold download_refused. intros H. apply orb_false_iff in H as [Hc Hs].
  split; [done|]. intros Hin. apply parent_component_contained in Hin. congruence.
Qed.

Lemma accepted_download_stays_inside_witness :
  ".." ∉ split_on "/" "reports/a.pdf".
Proof.
  exact (proj2 (accepted_download_stays_inside "reports/a.pdf" eq_refl)).
Defined.

(** ** The rows read from a PDF *)

Lemma string_app_assoc (a b c : string) : (a +:+ b) +:+ c = a +:+ (b +:+ c).
Proof.
  induction a as [|x a IH]; [done|].
  change (String x ((a +:+ b) +:+ c) = String x (a +:+ (b +:+ c))).
  by rewrite IH.
Qed.

Lemma string_app_nil_r (a : string) : a +:+ "" = a.
Proof.
  induction a as [|x a IH]; [done|].
  change (String x (a +:+ "") = String x a). by rewrite IH.
Qed.

Lemma split_ws_words s :
  Forall (fun w => w ≠ "" ∧ has_space w = false) (split_ws s).
Proof.
  induction s as [|c s IH]; [constructor|]. simpl.
  destruct (is_space c) eqn:Hc; [exact IH|].
  destruct s as [|c' s']; [repeat constructor; simpl; by rewrite ?Hc|].
  destruct (is_space c') eqn:Hc'.
  - constructor; [split; [done | simpl; by rewrite Hc]|exact IH].
  - destruct (split_ws (String c' s')) as [|w ws].
    + repeat constructor; simpl; by rewrite ?Hc.
    + apply Forall_cons in IH as [[_ Hw] Hws].
      constructor; [split; [done | simpl; by rewrite Hc, Hw]|exact Hws].
Qed.

Lemma split_ws_nil s : split_ws s = [] ↔ all_space s = true.
Proof.
  induction s as [|c s IH]; [done|]. simpl.
  destruct (is_space c) eqn:Hc; [exact IH|]. simpl.
  destruct s as [|c' s']; [done|].
  destruct (is_space c'); [done|].
  by destruct (split_ws (String c' s')).
Qed.

Lemma strip_empty s : strip s = "" ↔ all_space s = true.
Proof.
  unfold strip. induction s as [|c s IH]; [done|]. simpl.
  destruct (is_space c) eqn:Hc; [exact IH|]. simpl.
  destruct (rstrip s); by rewrite ?Hc.
Qed.

Lemma split_on_nonempty sep s : split_on sep s ≠ [].
Proof.
  destruct s as [|c s]; [done|]. simpl.
  destruct (Ascii.eqb c sep); [done|]. by destruct (split_on sep s).
Qed.

(** Cutting at a separator cuts the text on either side of it. *)
Lemma split_on_app sep a b :
  split_on sep (a +:+ String sep b) = split_on sep a ++ split_on sep b.
Proof.
  induction a as [|c a IH].
  - change ("" +:+ String sep b) with (String sep b). cbn -[Ascii.eqb].
    by rewrite Ascii.eqb_refl.
  - change (String c a +:+ String sep b) with (String c (a +:+ String sep b)).
    cbn -[Ascii.eqb]. rewrite IH. destruct (Ascii.eqb c sep); [done|].
    pose proof (split_on_nonempty sep a).
    by destruct (split_on sep a).
Qed.

Lemma line_rows_app l1 l2 : line_rows (l1 ++ l2) = line_rows l1 ++ line_rows l2.
Proof. unfold line_rows. by rewrite filter_app, map_app. Qed.

Lemma foldl_add_page text pages :
  foldl add_page text pages = text +:+ foldl add_page "" pages.
Proof.
  revert text. induction pages as [|txt pages IH]; intros text; simpl.
  - by rewrite string_app_nil_r.
  - rewrite (IH (add_page text txt)), (IH (add_page "" txt)).
    destruct txt as [t|]; simpl; [|done].
    destruct (String.eqb t ""); [done|].
    by rewrite !string_app_assoc.
Qed.

Lemma read_pdf_data_cons txt pages :
  read_pdf_data (txt :: pages) =
    match txt with
    | Some t => line_rows (split_on newline t)
    | None => []
    end ++ read_pdf_data pages.
Proof.
  unfold read_pdf_data; simpl. rewrite foldl_add_page.
  destruct txt as [t|]; simpl; [|done].
  destruct (String.eqb_spec t "") as [->|Hne]; [done|].
  change ("" +:+ t +:+ String newline "") with (t +:+ String newline "").
  rewrite string_app_assoc.
  change (String newline "" +:+ ?r) with (String newline r).
  by rewrite split_on_app, line_rows_app.
Qed.

Lemma ascii_text_app a b :
  ascii_text (a +:+ b) = (ascii_text a && ascii_text b)%bool.
Proof.
  induction a as [|c a IH]; [done|].
  change (String c a +:+ b) with (String c (a +:+ b)). simpl.
  by rewrite IH, andb_assoc.
Qed.

Lemma ascii_text_pages text pages :
  ascii_text text = true →
  Forall (fun txt => ascii_text (default "" txt) = true) pages →
  ascii_text (foldl add_page text pages) = true.
Proof.
  intros Htext Hpages. revert text Htext.
  induction Hpages as [|txt pages Htxt _ IH]; intros text Htext; [done|].
  simpl. apply IH. destruct txt as [t|]; simpl in *; [|done].
  destruct (String.eqb t ""); [done|].
  by rewrite !ascii_text_app, Htext, Htxt.
Qed.

Lemma ascii_text_split_on sep s :
  ascii_text s = true → Forall (fun w => ascii_text w = true) (split_on sep s).
Proof.
  induction s as [|c s IH]; [by repeat constructor|].
  cbn -[Ascii.eqb]. intros H. apply andb_true_iff in H as [Hc Hs].
  specialize (IH Hs). destruct (Ascii.eqb c sep); [by constructor|].
  destruct (split_on sep s) as [|w ws]; [repeat constructor; simpl; by rewrite Hc|].
  apply Forall_cons in IH as [Hw Hws].
  constructor; [simpl; by rewrite Hc, Hw | done].
Qed.

Lemma ascii_text_split_ws s :
  ascii_text s = true → Forall (fun w => ascii_text w = true) (split_ws s).
Proof.
  induction s as [|c s IH]; [constructor|].
  intros H. simpl in H. apply andb_true_iff in H as [Hc Hs].
  specialize (IH Hs). simpl.
  destruct (is_space c); [exact IH|].
  destruct s as [|c' s']; [repeat constructor; simpl; by rewrite Hc|].
  destruct (is_space c').
  - constructor; [simpl; by rewrite Hc | exact IH].
  - destruct (split_ws (String c' s')) as [|w ws].
    + repeat constructor; simpl; by rewrite Hc.
    + apply Forall_cons in IH as [Hw Hws].
      constructor; [simpl; by rewrite Hc, Hw | done].
Qed.

(** For pages of ASCII text: every row read from a PDF has at least one
    word, and every word is non-empty ASCII text free of whitespace; blank
    lines and pages without text leave no row. *)
Theorem read_pdf_rows_are_words (pages : list (option string)) :
  Forall (fun txt => ascii_text (default "" txt) = true) pages →
  Forall (fun row => row ≠ [] ∧
                     Forall (fun w => w ≠ "" ∧ has_space w = false ∧
                                      ascii_text w = true) row)
         (read_pdf_data pages).
Proof.
  intros Hpages.
  pose proof (ascii_text_split_on newline _
                (ascii_text_pages "" pages eq_refl Hpages)) as Hlines.
  unfold read_pdf_data, line_rows. apply Forall_forall. intros row Hrow.
  change (map ?f ?l) with (f <$> l) in Hrow.
  apply list_elem_of_fmap in Hrow as (line & -> & Hline).
  apply list_elem_of_filter in Hline as [Hline Hin].
  split.
  - intros Hnil. apply Hline, strip_empty, split_ws_nil, Hnil.
  - rewrite Forall_forall in Hlines. specialize (Hlines _ Hin).
    pose proof (split_ws_words line) as Hwords.
    pose proof (ascii_text_split_ws line Hlines) as Hascii.
    rewrite Forall_forall in Hwords, Hascii. apply Forall_forall.
    intros w Hw. destruct (Hwords w Hw). auto.
Qed.

Lemma read_pdf_rows_are_words_witness :
  Forall (fun row => row ≠ [] ∧
                     Forall (fun w => w ≠ "" ∧ has_space w = false ∧
                                      ascii_text w = true) row)
         (read_pdf_data [Some "PO1  Acme"; None; Some ""]).
Proof.
  apply read_pdf_rows_are_words. repeat constructor.
Defined.

(** The rows of a document are the rows of its pages, in page order: no row
    runs over a page break, and a page without text adds nothing. *)
Theorem read_pdf_rows_by_page (pages1 pages2 : list (option string)) :
  read_pdf_data (pages1 ++ pages2) = read_pdf_data pages1 ++ read_pdf_data pages2 ∧
  read_pdf_data (None :: pages2) = read_pdf_data pages2 ∧
  read_pdf_data (Some "" :: pages2) = read_pdf_data pages2.
Proof.
  split; [|by rewrite !read_pdf_data_cons].
  induction pages1 as [|txt pages1 IH]; [done|].
  change ((txt :: pages1) ++ pages2) with (txt :: (pages1 ++ pages2)).
  by rewrite !read_pdf_data_cons, IH, app_assoc.
Qed.

(** ** Tables with nothing in common *)

(** With integers within the range float64 holds exactly: when the invoice
    table has the PO-number column and none of its rows carries the PO
    number of any PO row, the records are one No matching invoice per PO
    row that passes the guard, in table order. *)
Theorem all_unmatched (invoice_df : DataFrame) (po_rows : list Series) :
  "po number" ∈ columns invoice_df →
  Forall (Forall (fun v => float_exact v = true)) (rows invoice_df) →
  Forall (Forall (fun cell : string * value => float_exact cell.2 = true))
         po_rows →
  Forall (fun po_row =>
            Forall (fun r => cell_eq
                      (series_get (zip (columns invoice_df) r) "po number")
                      (series_get po_row "po number") = false)
                   (rows invoice_df)) po_rows →
  scan invoice_df po_rows [] =
    Ok (map (fun po_row => no_match (series_get po_row "po number"))
            (filter (fun po_row => truthy (series_get po_row "po number") = true)
                    po_rows)).
Proof.
  intros Hcol _ _ Hall. induction Hall as [|po_row rest Hrow _ IH]; [done|].
  rewrite scan_cons, IH, row_discrepancies_selected. cbv zeta.
  destruct (truthy (series_get po_row "po number")) eqn:Ht; cbn [negb].
  - rewrite (selected_none invoice_df _ Hcol Hrow).
    by rewrite filter_cons_True.
  - rewrite filter_cons_False; [done|]. by rewrite Ht.
Qed.

Lemma all_unmatched_witness :
  scan plain_invoice
    [[("po number", VStr "PO4")]; [("vendor", VStr "Acme")];
     [("po number", VStr "PO5")]] []
  = Ok [no_match (VStr "PO4"); no_match (VStr "PO5")].
Proof.
  apply (all_unmatched plain_invoice
           [[("po number", VStr "PO4")]; [("vendor", VStr "Acme")];
            [("po number", VStr "PO5")]]).
  - simpl. left.
  - repeat constructor.
  - repeat constructor.
  - repeat constructor.
Defined.

(** ** Worked instances of the lemmas on labels *)

Lemma normalized_NoDup_witness : NoDup (columns (normalized supplier_table)).
Proof.
  apply normalized_NoDup. apply (bool_decide_unpack _). vm_compute. exact I.
Defined.

Lemma non_lower_header_kept_witness :
  columns (normalized supplier_table) !! 1 = Some "Supplier".
Proof.
  apply (non_lower_header_kept supplier_table 1 "Supplier"); [reflexivity|].
  discriminate.
Defined.
